(** * Query execution and result retrieval of dremioai (api/dremio/sql.py)

    A shallow embedding of [dremioai.api.dremio.sql]: the job model, the
    status polling loop, the paginated fetcher, the direct (ADBC) path and
    the [run_query] entry point, followed by the properties the
    specification states about them.

    Python integers are unbounded and are modelled by [Z]; [str] is
    modelled by [string]; a [Dict[str, Any]] by [gmap string pyval]; a
    coroutine by a computation over the trace of requests it issues. *)

From stdpp Require Import gmap strings list fin_maps pretty.
From Stdlib Require Import ZArith Lia.

Open Scope string_scope.
Open Scope list_scope.
Open Scope Z_scope.

(** ** Python values, exceptions and builtins *)

Module Py.

(** The values a result cell can hold ([Any] in [Dict[str, Any]]). *)
Inductive pyval :=
| VNone
| VBool (b : bool)
| VInt (z : Z)
| VStr (s : string).

(** The exceptions that reach the caller of this module. *)
Inductive exn :=
| RuntimeError (msg : string)
| TypeError (msg : string)
| ValueError (msg : string)
| IndexError (msg : string)
| ValidationError (field : string)
| TransportError (msg : string)
| DriverError (msg : string).

(** A call either returns or raises. *)
Inductive result (A : Type) :=
| Ret (a : A)
| Exc (e : exn).
Arguments Ret {A} a.
Arguments Exc {A} e.

(** Truthiness of an [Optional[str]]: [None] and the empty string are
    false. *)
Definition truthy (o : option string) : bool :=
  match o with
  | Some s => negb (String.eqb s "")
  | None => false
  end.

(** [f"{o}"] for an [Optional[str]]: [None] is rendered as its repr. *)
Definition fmt (o : option string) : string :=
  match o with
  | Some s => s
  | None => "None"
  end.

(** [min(a, b)] where [b] is an [Optional[int]]: comparing an [int]
    with [None] raises. *)
Definition min (a : Z) (b : option Z) : result Z :=
  match b with
  | Some z => Ret (if z <? a then z else a)
  | None => Exc (TypeError "'<' not supported between instances of 'NoneType' and 'int'")
  end.

(** An [Optional[int]] where an [int] is required. *)
Definition int_arg (o : option Z) : result Z :=
  match o with
  | Some z => Ret z
  | None => Exc (TypeError "'NoneType' object cannot be interpreted as an integer")
  end.

(** [range(start, stop, step)]: the items [start + i * step], for
    [i = 0, 1, ...], that lie before [stop] in the direction of [step].
    The fuel bounds the number of items: each step moves by at least
    one towards [stop]. *)
Fixpoint range_up (fuel : nat) (cur stop step : Z) : list Z :=
  match fuel with
  | O => []
  | S fuel' =>
      if cur <? stop then cur :: range_up fuel' (cur + step) stop step
      else []
  end.

Fixpoint range_down (fuel : nat) (cur stop step : Z) : list Z :=
  match fuel with
  | O => []
  | S fuel' =>
      if stop <? cur then cur :: range_down fuel' (cur + step) stop step
      else []
  end.

Definition range (start stop step : Z) : result (list Z) :=
  if step =? 0 then Exc (ValueError "range() arg 3 must not be zero")
  else if 0 <? step then Ret (range_up (Z.to_nat (stop - start)) start stop step)
  else Ret (range_down (Z.to_nat (start - stop)) start stop step).

(** [s.startswith(p)]. *)
Fixpoint startswith (p s : string) : bool :=
  match p, s with
  | EmptyString, _ => true
  | String a p', String b s' => if Ascii.eqb a b then startswith p' s' else false
  | String _ _, EmptyString => false
  end.

(** [s[n:]]. *)
Fixpoint slice_from (n : nat) (s : string) : string :=
  match n, s with
  | O, _ => s
  | S n', String _ s' => slice_from n' s'
  | S _, EmptyString => EmptyString
  end.

(** [itertools.chain] applied to a sequence of iterables and consumed
    into a list. *)
Definition chain {A : Type} (iterables : list (list A)) : list A :=
  concat iterables.

End Py.
Import Py.

(** ** Data model *)

Inductive ArcticSourceType := BRANCH | TAG | COMMIT.

Record ArcticSource := {
  as_type : ArcticSourceType;
  as_value : string;
}.

Record Query := {
  sql : string;
  context : option (list string);
  references : option (gmap string ArcticSource);
}.

Record QuerySubmission := { id : string }.

Inductive JobState :=
| NOT_SUBMITTED
| STARTING
| RUNNING
| COMPLETED
| CANCELED
| FAILED
| CANCELLATION_REQUESTED
| PLANNING
| PENDING
| METADATA_RETRIEVAL
| QUEUED
| ENGINE_START
| EXECUTION_PLANNING
| INVALID_STATE.

#[global] Instance JobState_eq_dec : EqDecision JobState.
Proof. solve_decision. Defined.

Inductive QueryType :=
| UI_RUN
| UI_PREVIEW
| UI_INTERNAL_PREVIEW
| UI_INTERNAL_RUN
| UI_EXPORT
| ODBC
| JDBC
| REST
| ACCELERATOR_CREATE
| ACCELERATOR_DROP
| UNKNOWN
| PREPARE_INTERNAL
| ACCELERATOR_EXPLAIN
| UI_INITIAL_PREVIEW.

(** The fields of [Job] that the module reads or that decide whether a
    snapshot validates.  The timestamps, the queue identifiers and the
    acceleration record are optional, default to [None] and are read by
    no function of the module. *)
Record Job := {
  job_state : JobState;
  row_count : option Z;
  error_message : option string;
  query_type : QueryType;
  queue_name : option string;
  queue_id : option string;
  cancellation_reason : option string;
}.

Definition done (self : Job) : bool :=
  bool_decide (job_state self ∈ [COMPLETED; CANCELED; FAILED]).

Definition succeeded (self : Job) : bool :=
  bool_decide (job_state self = COMPLETED).

Record ResultSchemaType := { rst_name : string }.

Record ResultSchema := {
  rs_name : string;
  rs_type : ResultSchemaType;
}.

Record JobResults := {
  jr_row_count : Z;
  result_schema : option (list ResultSchema);
  rows : list (gmap string pyval);
}.

(** [JobResultsWrapper] is a [List[JobResults]]. *)
Abbreviation JobResultsWrapper := (list JobResults).

Record JobResultsParams := {
  offset : option Z;
  limit : option Z;
}.

(** [Union[Query, str]]: the argument of [run_query]. *)
Inductive query_arg :=
| QStr (s : string)
| QObj (q : Query).

(** ** Deserialisation of a job snapshot

    A snapshot is the JSON object the job service answers with.  Each
    member the model reads is absent, [null] or present with a value of
    its JSON type. *)

Inductive member (A : Type) :=
| Absent
| Null
| Present (a : A).
Arguments Absent {A}.
Arguments Null {A}.
Arguments Present {A} a.

Record JobSnapshot := {
  jobState : member string;
  rowCount : member Z;
  errorMessage : member string;
  queryType : member string;
  queueName : member string;
  queueId : member string;
  cancellationReason : member string;
}.

(** Modelled from the spec: [UStrEnum] of [dremioai.api.util], whose
    source is not part of the files at hand.  The members of the
    enumeration are denoted by their upper-case names, as section 3 of
    the specification lists them. *)
Definition JobState_of_string (s : string) : option JobState :=
  if String.eqb s "NOT_SUBMITTED" then Some NOT_SUBMITTED
  else if String.eqb s "STARTING" then Some STARTING
  else if String.eqb s "RUNNING" then Some RUNNING
  else if String.eqb s "COMPLETED" then Some COMPLETED
  else if String.eqb s "CANCELED" then Some CANCELED
  else if String.eqb s "FAILED" then Some FAILED
  else if String.eqb s "CANCELLATION_REQUESTED" then Some CANCELLATION_REQUESTED
  else if String.eqb s "PLANNING" then Some PLANNING
  else if String.eqb s "PENDING" then Some PENDING
  else if String.eqb s "METADATA_RETRIEVAL" then Some METADATA_RETRIEVAL
  else if String.eqb s "QUEUED" then Some QUEUED
  else if String.eqb s "ENGINE_START" then Some ENGINE_START
  else if String.eqb s "EXECUTION_PLANNING" then Some EXECUTION_PLANNING
  else if String.eqb s "INVALID_STATE" then Some INVALID_STATE
  else None.

Definition QueryType_of_string (s : string) : option QueryType :=
  if String.eqb s "UI_RUN" then Some UI_RUN
  else if String.eqb s "UI_PREVIEW" then Some UI_PREVIEW
  else if String.eqb s "UI_INTERNAL_PREVIEW" then Some UI_INTERNAL_PREVIEW
  else if String.eqb s "UI_INTERNAL_RUN" then Some UI_INTERNAL_RUN
  else if String.eqb s "UI_EXPORT" then Some UI_EXPORT
  else if String.eqb s "ODBC" then Some ODBC
  else if String.eqb s "JDBC" then Some JDBC
  else if String.eqb s "REST" then Some REST
  else if String.eqb s "ACCELERATOR_CREATE" then Some ACCELERATOR_CREATE
  else if String.eqb s "ACCELERATOR_DROP" then Some ACCELERATOR_DROP
  else if String.eqb s "UNKNOWN" then Some UNKNOWN
  else if String.eqb s "PREPARE_INTERNAL" then Some PREPARE_INTERNAL
  else if String.eqb s "ACCELERATOR_EXPLAIN" then Some ACCELERATOR_EXPLAIN
  else if String.eqb s "UI_INITIAL_PREVIEW" then Some UI_INITIAL_PREVIEW
  else None.

(** A required field, [Field(..., alias=name)], of an enumeration type. *)
Definition required_enum {A : Type} (name : string)
    (parse : string -> option A) (m : member string) : result A :=
  match m with
  | Present s =>
      match parse s with
      | Some a => Ret a
      | None => Exc (ValidationError name)
      end
  | Null | Absent => Exc (ValidationError name)
  end.

(** An optional field, [Optional[T] = Field(default=d, alias=...)]: the
    default stands in for an absent member only; [null] is [None]. *)
Definition optional_field {A : Type} (d : option A) (m : member A) : option A :=
  match m with
  | Absent => d
  | Null => None
  | Present a => Some a
  end.

(** [Job.model_validate(snapshot)]. *)
Definition Job_validate (s : JobSnapshot) : result Job :=
  match required_enum "jobState" JobState_of_string (jobState s) with
  | Exc e => Exc e
  | Ret st =>
      match required_enum "queryType" QueryType_of_string (queryType s) with
      | Exc e => Exc e
      | Ret qt =>
          Ret {| job_state := st;
                 row_count := optional_field (Some 0) (rowCount s);
                 error_message := optional_field None (errorMessage s);
                 query_type := qt;
                 queue_name := optional_field None (queueName s);
                 queue_id := optional_field None (queueId s);
                 cancellation_reason := optional_field None (cancellationReason s) |}
      end
  end.

(** ** Coroutines over a trace of requests *)

(** Handles of the direct-protocol driver. *)
Definition Connection := nat.
Definition Cursor := nat.

(** What the module asks of the outside world, in the order asked. *)
Inductive event :=
| HttpPost (url : string) (body : Query)
| HttpGet (url : string) (params : option JobResultsParams)
| Sleep
| DbConnect (uri : string) (db_args conn_args : gmap string string)
| OpenCursor (conn : Connection)
| Execute (cursor : Cursor) (statement : string)
| Fetchall (cursor : Cursor)
| FetchDf (cursor : Cursor)
| CloseCursor (cursor : Cursor)
| CloseConnection (conn : Connection).

Definition trace := list event.

(** The ways an awaited coroutine ends: it returns, it raises, or it is
    still pending when the fuel of the enclosing loop runs out. *)
Inductive outcome (A : Type) :=
| Done (a : A)
| Raised (e : exn)
| Pending.
Arguments Done {A} a.
Arguments Raised {A} e.
Arguments Pending {A}.

Definition M (A : Type) : Type := trace -> outcome A * trace.

Definition ret {A : Type} (a : A) : M A := fun t => (Done a, t).

Definition raise {A : Type} (e : exn) : M A := fun t => (Raised e, t).

Definition bind {A B : Type} (c : M A) (k : A -> M B) : M B :=
  fun t =>
    match c t with
    | (Done a, t') => k a t'
    | (Raised e, t') => (Raised e, t')
    | (Pending, t') => (Pending, t')
    end.

#[global] Instance M_ret : MRet M := @ret.
#[global] Instance M_bind : MBind M := fun A B k c => bind c k.

(** A call to the outside world: the request is put on the trace and the
    world's answer is returned or raised. *)
Definition call {A : Type} (e : event) (answer : result A) : M A :=
  fun t =>
    (match answer with Ret a => Done a | Exc x => Raised x end, t ++ [e]).

(** A pure step that may raise. *)
Definition lift {A : Type} (r : result A) : M A :=
  match r with
  | Ret a => ret a
  | Exc e => raise e
  end.

(** [try: body finally: cleanup].  The cleanup runs when the body returns
    and when it raises; an exception of the cleanup replaces the outcome
    of the body. *)
Definition try_finally {A : Type} (body : M A) (cleanup : M unit) : M A :=
  fun t =>
    match body t with
    | (Pending, t') => (Pending, t')
    | (o, t') =>
        match cleanup t' with
        | (Done _, t'') => (o, t'')
        | (Raised e, t'') => (Raised e, t'')
        | (Pending, t'') => (Pending, t'')
        end
    end.

(** A coroutine with a single suspension point: it issues one request and
    resumes with the answer. *)
Record coroutine (A : Type) := {
  issued : event;
  answer : result A;
}.
Arguments issued {A} c.
Arguments answer {A} c.

Definition await {A : Type} (c : coroutine A) : M A :=
  call (issued c) (answer c).

(** ** The outside world *)

(** The part of pandas the module calls. *)
Record Pandas := {
  DataFrame : Type;
  (** [pd.DataFrame()] *)
  pd_empty : DataFrame;
  (** [pd.DataFrame(data=records, columns=names)] *)
  pd_DataFrame : list (gmap string pyval) -> list string -> DataFrame;
  (** [df[name] = pd.to_datetime(df[name])] *)
  pd_to_datetime : DataFrame -> string -> result DataFrame;
}.

(** Modelled from the spec: [DremioAsyncHttpClient] of
    [dremioai.api.transport] and the event loop that runs the page
    fetches, whose sources are not part of the files at hand.  Section 6
    of the specification gives the three calls; the answer to a status
    query may change from one poll to the next, a page is an idempotent
    read (section 4.2).  [completion_order n] is the order in which [n]
    concurrently issued requests are answered. *)
Record Service := {
  post_sql : string -> Query -> result QuerySubmission;
  get_job : string -> nat -> result JobSnapshot;
  get_page : string -> JobResultsParams -> result JobResults;
  completion_order : nat -> list nat;
}.

(** [urllib.parse.ParseResult]. *)
Record ParseResult := {
  scheme : string;
  netloc : string;
  path : string;
  params : string;
  query : string;
  fragment : string;
}.

(** [urllib.parse]: [urlparse] and [ParseResult.geturl]. *)
Record Urllib := {
  urlparse : string -> ParseResult;
  geturl : ParseResult -> string;
}.

(** The declared type of a column, an object of the driver that [str]
    renders. *)
Inductive type_code := TypeCode (rendering : string).

Definition str (t : type_code) : string :=
  match t with TypeCode r => r end.

(** An item of [cursor.description]: [info[0]] is the name of the column
    and [info[1]] its declared type; the module reads no other item. *)
Record descriptor := {
  info0 : string;
  info1 : type_code;
}.

(** [adbc_driver_flightsql]: the option names and the blocking calls of
    [dbapi]. *)
Record Driver (pd : Pandas) := {
  AUTHORIZATION_HEADER : string;
  RPC_CALL_HEADER_PREFIX : string;
  OPTION_SESSION_OPTION_PREFIX : string;
  dbapi_connect : string -> gmap string string -> gmap string string -> result Connection;
  conn_cursor : Connection -> result Cursor;
  cursor_execute : Cursor -> string -> result unit;
  cursor_fetchall : Cursor -> result (list (list pyval));
  cursor_fetch_df : Cursor -> result (DataFrame pd);
  cursor_description : Cursor -> list descriptor;
  cursor_close : Cursor -> result unit;
  conn_close : Connection -> result unit;
}.
Arguments AUTHORIZATION_HEADER {pd} _.
Arguments RPC_CALL_HEADER_PREFIX {pd} _.
Arguments OPTION_SESSION_OPTION_PREFIX {pd} _.
Arguments dbapi_connect {pd} _ _ _ _.
Arguments conn_cursor {pd} _ _.
Arguments cursor_execute {pd} _ _ _.
Arguments cursor_fetchall {pd} _ _.
Arguments cursor_fetch_df {pd} _ _.
Arguments cursor_description {pd} _ _.
Arguments cursor_close {pd} _ _.
Arguments conn_close {pd} _ _.

(** [settings.instance().dremio]. *)
Record Settings := {
  dremio_uri : string;
  dremio_pat : string;
  dremio_project_id : option string;
  dremio_is_cloud : bool;
}.

(** What [get_results], [run_adbc_query] and [run_query] return:
    [Union[JobResultsWrapper, pd.DataFrame]]. *)
Inductive query_result (pd : Pandas) :=
| Frame (df : DataFrame pd)
| Wrapper (jr : JobResultsWrapper).
Arguments Frame {pd} df.
Arguments Wrapper {pd} jr.

(** ** The job-polling path *)

(** [f"/v0/projects/{project_id}" if project_id else "/api/v3"]. *)
Definition endpoint_of (project_id : option string) : string :=
  if truthy project_id then "/v0/projects/" +:+ fmt project_id else "/api/v3".

(** The number of status queries for [url] already on the trace. *)
Fixpoint polls (url : string) (t : trace) : nat :=
  match t with
  | [] => O
  | HttpGet u None :: t' => if String.eqb u url then S (polls url t') else polls url t'
  | _ :: t' => polls url t'
  end.

(** Modelled from the spec: [run_in_parallel] of [dremioai.api.util],
    whose source is not part of the files at hand.  Section 4.2: all
    requests are issued concurrently, the engine waits for all of them,
    the first failure to arrive fails the whole retrieval, and the
    results are assembled by position.  [gather] files each answer, as
    it arrives, in the slot of its coroutine. *)
Fixpoint gather {A : Type} (cs : list (coroutine A)) (order : list nat)
    (slots : list (option A)) : outcome (list (option A)) :=
  match order with
  | [] => Done slots
  | i :: order' =>
      match cs !! i with
      | None => gather cs order' slots
      | Some c =>
          match answer c with
          | Exc e => Raised e
          | Ret a => gather cs order' (<[i := Some a]> slots)
          end
      end
  end.

(** The results in the order of the coroutines, once every slot is
    filled; a coroutine that is never answered leaves the caller waiting. *)
Fixpoint collect {A : Type} (slots : list (option A)) : outcome (list A) :=
  match slots with
  | [] => Done []
  | None :: _ => Pending
  | Some a :: slots' =>
      match collect slots' with
      | Done l => Done (a :: l)
      | Raised e => Raised e
      | Pending => Pending
      end
  end.

Definition run_in_parallel {A : Type} (svc : Service)
    (coroutines : list (coroutine A)) : M (list A) :=
  fun t =>
    let t' := t ++ map issued coroutines in
    let n := length coroutines in
    match gather coroutines (completion_order svc n) (replicate n None) with
    | Done slots => (collect slots, t')
    | Raised e => (Raised e, t')
    | Pending => (Pending, t')
    end.

Section JobApi.

Context (pd : Pandas) (svc : Service).

(** [await client.get(url, deser=Job)]. *)
Definition client_get_job (url : string) : M Job :=
  fun t =>
    (snapshot ← call (HttpGet url None) (get_job svc url (polls url t));
     lift (Job_validate snapshot)) t.

Definition _fetch_results (uri pat : option string) (project_id : option string)
    (job_id : string) (off limit : Z) : coroutine JobResults :=
  let params := {| offset := Some off; limit := Some limit |} in
  let endpoint := endpoint_of project_id in
  let url := endpoint +:+ "/job/" +:+ job_id +:+ "/results" in
  {| issued := HttpGet url (Some params);
     answer := get_page svc url params |}.

(** [while not job.done: sleep; job = get].  The loop of the source has
    no bound; [fuel] bounds the number of iterations the model follows
    before it reports the coroutine as still pending. *)
Fixpoint poll (fuel : nat) (url : string) (job : Job) : M Job :=
  if done job then ret job
  else
    match fuel with
    | O => fun t => (Pending, t)
    | S fuel' =>
        call Sleep (Ret tt);;
        job' ← client_get_job url;
        poll fuel' url job'
    end.

(** The message of the failure of a job that did not succeed. *)
Definition emsg (job : Job) : option string :=
  if truthy (error_message job) then error_message job
  else if bool_decide (job_state job = CANCELED) then cancellation_reason job
  else Some "Unknown error".

(** The tabular form of the pages. *)
Definition to_frame (jr : JobResultsWrapper) : M (query_result pd) :=
  match jr with
  | [] => raise (IndexError "list index out of range")
  | jr0 :: _ =>
      match result_schema jr0 with
      | None => raise (TypeError "'NoneType' object is not iterable")
      | Some schema =>
          let df := pd_DataFrame pd (chain (map rows jr)) (map rs_name schema) in
          df' ← lift (foldl
                   (fun acc rs =>
                      match acc with
                      | Exc e => Exc e
                      | Ret df =>
                          if String.eqb (rst_name (rs_type rs)) "TIMESTAMP"
                          then pd_to_datetime pd df (rs_name rs)
                          else Ret df
                      end)
                   (Ret df) schema);
          ret (Frame df')
      end
  end.

(** The statements of [get_results] that follow the polling loop:
    [job] is the snapshot the loop ended on. *)
Definition assemble (job : Job) (project_id : option string)
    (qs : QuerySubmission) (use_df : bool)
    (uri pat : option string) : M (query_result pd) :=
  if negb (succeeded job) then
    raise (RuntimeError ("Job " +:+ id qs +:+ " failed: " +:+ fmt (emsg job)))
  else if bool_decide (row_count job = Some 0) then
    ret (if use_df then Frame (pd_empty pd) else Wrapper [])
  else
    limit ← lift (Py.min 500 (row_count job));
    stop ← lift (Py.int_arg (row_count job));
    offsets ← lift (Py.range 0 stop limit);
    results ← run_in_parallel svc
      (map (fun off => _fetch_results uri pat project_id (id qs) off limit) offsets);
    let jr := chain [results] in
    if use_df then to_frame jr else ret (Wrapper jr).

(** [get_results].  The [client] argument is left out: the client that
    [run_query] passes and the one created when the argument is [None]
    speak to the same service. *)
Definition get_results (fuel : nat) (project_id : option string)
    (qs : QuerySubmission + string) (use_df : bool)
    (uri pat : option string) : M (query_result pd) :=
  let qs := match qs with inl q => q | inr s => {| id := s |} end in
  let endpoint := endpoint_of project_id in
  let url := endpoint +:+ "/job/" +:+ id qs in
  job ← client_get_job url;
  job ← poll fuel url job;
  assemble job project_id qs use_df uri pat.

End JobApi.

(** ** The direct-protocol path *)

Definition convert_to_adbc_uri (lib : Urllib) (uri : string) (is_dc : bool) : ParseResult :=
  let u := urlparse lib uri in
  let u :=
    if is_dc && startswith "api." (netloc u)
    then {| scheme := scheme u;
            netloc := "data." +:+ slice_from 4 (netloc u);
            path := path u;
            params := params u;
            query := query u;
            fragment := fragment u |}
    else u in
  {| scheme := "grpc+tls";
     netloc := netloc u;
     path := path u;
     params := params u;
     query := query u;
     fragment := fragment u |}.

(** [{rs[ix].name: col for ix, col in enumerate(row)}], from position
    [ix] on and with the entries of the earlier positions in [acc]. *)
Fixpoint convert_row_from (rs : list ResultSchema) (ix : nat) (row : list pyval)
    (acc : gmap string pyval) : result (gmap string pyval) :=
  match row with
  | [] => Ret acc
  | col :: row' =>
      match rs !! ix with
      | None => Exc (IndexError "list index out of range")
      | Some s => convert_row_from rs (S ix) row' (<[rs_name s := col]> acc)
      end
  end.

Definition convert_row (rs : list ResultSchema) (row : list pyval)
    : result (gmap string pyval) :=
  convert_row_from rs O row ∅.

(** A list comprehension whose element expression may raise. *)
Fixpoint comprehension {A B : Type} (f : A -> result B) (l : list A) : result (list B) :=
  match l with
  | [] => Ret []
  | a :: l' =>
      match f a with
      | Exc e => Exc e
      | Ret b =>
          match comprehension f l' with
          | Exc e => Exc e
          | Ret bs => Ret (b :: bs)
          end
      end
  end.

Definition convert_to_job_results (schema : list descriptor) (rows : list (list pyval))
    : result JobResultsWrapper :=
  let rs :=
    map (fun info => {| rs_name := info0 info;
                        rs_type := {| rst_name := str (info1 info) |} |}) schema in
  match comprehension (convert_row rs) rows with
  | Exc e => Exc e
  | Ret rsrows =>
      Ret [ {| jr_row_count := Z.of_nat (length rows);
               result_schema := Some rs;
               rows := rsrows |} ]
  end.

Section Adbc.

Context (pd : Pandas) (lib : Urllib) (drv : Driver pd) (cfg : Settings).

Definition create_adbc_connection_options (pat : string) (project_id : option string)
    : gmap string string * gmap string string :=
  let session_options : gmap string string := {[ "routing_tag" := "MCP" ]} in
  let db_args : gmap string string :=
    <[ RPC_CALL_HEADER_PREFIX drv +:+ "useEncryption" := "true" ]>
      {[ AUTHORIZATION_HEADER drv := "Bearer " +:+ pat ]} in
  let db_args :=
    if truthy project_id
    then <[ RPC_CALL_HEADER_PREFIX drv +:+ "Cookie" := "project_id=" +:+ fmt project_id ]> db_args
    else db_args in
  (db_args,
   list_to_map
     (map (fun kv : string * string =>
             (OPTION_SESSION_OPTION_PREFIX drv +:+ kv.1, kv.2))
          (map_to_list session_options))).

(** [async with adbc_connect(uri, db_args, conn_args) as conn: body].
    [conn] stays [None] when [dbapi.connect] raises, and the [finally]
    clause then closes nothing. *)
Definition adbc_connect {A : Type} (uri : string)
    (db_args conn_args : gmap string string) (body : Connection -> M A) : M A :=
  fun t =>
    match call (DbConnect uri db_args conn_args) (dbapi_connect drv uri db_args conn_args) t with
    | (Done conn, t') =>
        try_finally (body conn) (call (CloseConnection conn) (conn_close drv conn)) t'
    | (Raised e, t') => try_finally (raise e) (ret tt) t'
    | (Pending, t') => (Pending, t')
    end.

(** [async with adbc_cursor(conn) as cursor: body]. *)
Definition adbc_cursor {A : Type} (conn : Connection) (body : Cursor -> M A) : M A :=
  fun t =>
    match call (OpenCursor conn) (conn_cursor drv conn) t with
    | (Done cursor, t') =>
        try_finally (body cursor) (call (CloseCursor cursor) (cursor_close drv cursor)) t'
    | (Raised e, t') => try_finally (raise e) (ret tt) t'
    | (Pending, t') => (Pending, t')
    end.

Definition run_adbc_query (query : query_arg) (use_df : bool) : M (query_result pd) :=
  let query :=
    match query with
    | QObj q => q
    | QStr s => {| sql := s; context := None; references := None |}
    end in
  let uri := geturl lib (convert_to_adbc_uri lib (dremio_uri cfg) (dremio_is_cloud cfg)) in
  let '(db_args, conn_args) :=
    create_adbc_connection_options (dremio_pat cfg) (dremio_project_id cfg) in
  adbc_connect uri db_args conn_args (fun conn =>
    adbc_cursor conn (fun cursor =>
      call (Execute cursor (sql query)) (cursor_execute drv cursor (sql query));;
      if use_df then
        df ← call (FetchDf cursor) (cursor_fetch_df drv cursor);
        ret (Frame df)
      else
        rows ← call (Fetchall cursor) (cursor_fetchall drv cursor);
        jr ← lift (convert_to_job_results (cursor_description drv cursor) rows);
        ret (Wrapper jr))).

(** ** The entry point *)

Context (svc : Service).

Definition run_query (fuel : nat) (query : query_arg) (use_df use_adbc : bool)
    : M (query_result pd) :=
  if use_adbc then run_adbc_query query use_df
  else
    let query :=
      match query with
      | QObj q => q
      | QStr s => {| sql := s; context := None; references := None |}
      end in
    let project_id := dremio_project_id cfg in
    let endpoint := endpoint_of project_id in
    qs ← call (HttpPost (endpoint +:+ "/sql") query) (post_sql svc (endpoint +:+ "/sql") query);
    get_results pd svc fuel project_id (inl qs) use_df None None.

End Adbc.

(** ** Vocabulary of the properties *)

(** The job a status query answers with, once deserialised. *)
Definition job_at (svc : Service) (url : string) (k : nat) : result Job :=
  match get_job svc url k with
  | Ret snapshot => Job_validate snapshot
  | Exc e => Exc e
  end.

(** [settles svc url p n job]: the status queries number [p], ..., [p + n]
    of [url] are answered with valid snapshots, the first [n] of them not
    done, the last one, [job], done. *)
Inductive settles (svc : Service) (url : string) : nat -> nat -> Job -> Prop :=
| settles_now p job :
    job_at svc url p = Ret job ->
    done job = true ->
    settles svc url p O job
| settles_later p n job0 job :
    job_at svc url p = Ret job0 ->
    done job0 = false ->
    settles svc url (S p) n job ->
    settles svc url p (S n) job.

(** The requests of a polling loop that goes round [n] times. *)
Fixpoint poll_trace (url : string) (n : nat) : trace :=
  match n with
  | O => []
  | S n' => Sleep :: HttpGet url None :: poll_trace url n'
  end.

(** The page requests on a trace, oldest first. *)
Fixpoint page_requests (t : trace) : list (string * JobResultsParams) :=
  match t with
  | [] => []
  | HttpGet url (Some p) :: t' => (url, p) :: page_requests t'
  | _ :: t' => page_requests t'
  end.

(** The URL of the status of a job and the URL of its pages. *)
Definition job_url (project_id : option string) (job_id : string) : string :=
  endpoint_of project_id +:+ "/job/" +:+ job_id.

Definition results_url (project_id : option string) (job_id : string) : string :=
  endpoint_of project_id +:+ "/job/" +:+ job_id +:+ "/results".

(** The page request for [limit] rows from [off] on. *)
Definition page_request (project_id : option string) (job_id : string)
    (limit off : Z) : string * JobResultsParams :=
  (results_url project_id job_id, {| offset := Some off; limit := Some limit |}).

(** The identifier [get_results] works with, whichever form its [qs]
    argument has. *)
Definition submission_id (qs : QuerySubmission + string) : string :=
  match qs with
  | inl q => id q
  | inr s => s
  end.

(** The offsets [0], [P], [2 * P], ... of [count] pages of [P] rows. *)
Definition page_offsets (P : Z) (count : nat) : list Z :=
  map (fun i : nat => Z.of_nat i * P) (seq 0 count).

(** The [Query] the entry points work with, whichever form their
    argument has. *)
Definition query_of (query : query_arg) : Query :=
  match query with
  | QObj q => q
  | QStr s => {| sql := s; context := None; references := None |}
  end.

(** The request that opens the connection of the direct path. *)
Definition connect_event (pd : Pandas) (lib : Urllib) (drv : Driver pd)
    (cfg : Settings) : event :=
  let options :=
    create_adbc_connection_options pd drv (dremio_pat cfg) (dremio_project_id cfg) in
  DbConnect
    (geturl lib (convert_to_adbc_uri lib (dremio_uri cfg) (dremio_is_cloud cfg)))
    options.1 options.2.

(** The answer of the driver to that request. *)
Definition connect_answer (pd : Pandas) (lib : Urllib) (drv : Driver pd)
    (cfg : Settings) : result Connection :=
  let options :=
    create_adbc_connection_options pd drv (dremio_pat cfg) (dremio_project_id cfg) in
  dbapi_connect drv
    (geturl lib (convert_to_adbc_uri lib (dremio_uri cfg) (dremio_is_cloud cfg)))
    options.1 options.2.

(** The schema [convert_to_job_results] builds from the descriptors. *)
Definition schema_of (description : list descriptor) : list ResultSchema :=
  map (fun info => {| rs_name := info0 info;
                      rs_type := {| rst_name := str (info1 info) |} |}) description.

(** [ceil(a / b)] for a positive [b]. *)
Definition ceil_div (a b : Z) : Z := (a + b - 1) / b.

(** The naive retrieval the specification compares with: the coroutines
    are awaited one after the other, in the order of the list, and the
    results are concatenated in that order. *)
Fixpoint fetch_sequentially {A : Type} (coroutines : list (coroutine A)) : M (list A) :=
  match coroutines with
  | [] => ret []
  | c :: coroutines' =>
      a ← await c;
      l ← fetch_sequentially coroutines';
      ret (a :: l)
  end.

(** The rows of a result set: the rows of its pages, in page order. *)
Definition all_rows (jr : JobResultsWrapper) : list (gmap string pyval) :=
  concat (map rows jr).

(** ** Vocabulary of the further properties *)

(** [stalls svc url p n e]: the status queries number [p], ..., [p + n - 1]
    of [url] are answered with valid snapshots that are not done, and the
    query number [p + n] raises [e] (in the transport or in the
    validation of the snapshot). *)
Inductive stalls (svc : Service) (url : string) : nat -> nat -> exn -> Prop :=
| stalls_now p e :
    job_at svc url p = Exc e ->
    stalls svc url p O e
| stalls_later p n job0 e :
    job_at svc url p = Ret job0 ->
    done job0 = false ->
    stalls svc url (S p) n e ->
    stalls svc url p (S n) e.

(** The requests of the job API, the pauses of the polling loop
    included, and the calls of the driver. *)
Definition is_http (e : event) : bool :=
  match e with
  | HttpPost _ _ | HttpGet _ _ | Sleep => true
  | _ => false
  end.

Definition is_driver (e : event) : bool :=
  match e with
  | DbConnect _ _ _ | OpenCursor _ | Execute _ _ | Fetchall _ | FetchDf _
  | CloseCursor _ | CloseConnection _ => true
  | _ => false
  end.

Definition is_page_request (e : event) : bool :=
  match e with
  | HttpGet _ (Some _) => true
  | _ => false
  end.

(** The pauses on a trace. *)
Fixpoint sleeps (t : trace) : nat :=
  match t with
  | [] => O
  | Sleep :: t' => S (sleeps t')
  | _ :: t' => sleeps t'
  end.

(** The columns [get_results] converts in tabular mode. *)
Definition is_timestamp (rs : ResultSchema) : bool :=
  String.eqb (rst_name (rs_type rs)) "TIMESTAMP".

(** [df[name] = pd.to_datetime(df[name])] for each of [columns] in turn,
    up to the first conversion that raises. *)
Definition convert_columns (pd : Pandas) (df : DataFrame pd)
    (columns : list ResultSchema) : result (DataFrame pd) :=
  foldl (fun acc rs =>
           match acc with
           | Exc e => Exc e
           | Ret df => pd_to_datetime pd df (rs_name rs)
           end) (Ret df) columns.

(** The fetch the direct path asks of the cursor. *)
Definition fetch_event (use_df : bool) (cursor : Cursor) : event :=
  if use_df then FetchDf cursor else Fetchall cursor.

(** ** Feature flags (config/feature_flags.py)

    [FeatureFlagManager] wraps the LaunchDarkly client.  The class keeps
    its only instance in [_instance]; the calls made to LaunchDarkly are
    recorded in the order made.  The calls to the logger are left out:
    they return nothing and the module reads nothing back from them. *)

Module FeatureFlags.

(** A handle on a client of LaunchDarkly. *)
Definition LDClient := nat.

(** The key of a single-kind context: a string, or the dictionary that
    [get_bool_flag] and [get_string_flag] pass on. *)
Inductive context_key :=
| KeyStr (s : string)
| KeyDict (d : gmap string pyval).

(** A multi-context: kind and key of its contexts, in the order added. *)
Definition Context := list (string * context_key).

Inductive ld_call :=
| SetConfig (sdk_key : string)
| Get
| IsInitialized (client : LDClient)
| Variation (client : LDClient) (flag_key : string) (context : Context)
            (default : pyval)
| Close (client : LDClient).

(** [ldclient]: what each call answers, given the calls made before it
    (a client becomes initialised, and a flag changes, with time).
    [get] answers for the key of the configuration in force. *)
Record LaunchDarkly := {
  set_config : list ld_call -> string -> result unit;
  get : list ld_call -> string -> result LDClient;
  is_initialized : list ld_call -> LDClient -> result bool;
  variation : list ld_call -> LDClient -> string -> Context -> pyval -> result pyval;
  close : list ld_call -> LDClient -> result unit;
}.

Record FeatureFlagManager := { _client : option LDClient }.

(** The class attribute and the calls made so far. *)
Record State := {
  _instance : option FeatureFlagManager;
  calls : list ld_call;
}.



Section Manager.

Context (ld : LaunchDarkly).

(** [FeatureFlagManager(sdk_key)].  An empty key returns at once.  An
    exception of [set_config], [get] or [is_initialized] is logged and
    swallowed; [_client] holds the client from the moment [get]
    returned. *)
Definition init (sdk_key : string) (cs : list ld_call)
    : FeatureFlagManager * list ld_call :=
  if negb (truthy (Some sdk_key)) then ({| _client := None |}, cs)
  else
    match set_config ld cs sdk_key with
    | Exc _ => ({| _client := None |}, cs ++ [SetConfig sdk_key])
    | Ret _ =>
        match get ld (cs ++ [SetConfig sdk_key]) sdk_key with
        | Exc _ => ({| _client := None |}, cs ++ [SetConfig sdk_key; Get])
        | Ret client =>
            ({| _client := Some client |},
             cs ++ [SetConfig sdk_key; Get; IsInitialized client])
        end
    end.

Definition instance (sdk_key : option string) (st : State)
    : result FeatureFlagManager * State :=
  match _instance st with
  | None =>
      match sdk_key with
      | None =>
          (Exc (ValueError
                  "sdk_key is required when creating FeatureFlagManager instance"),
           st)
      | Some key =>
          let '(m, cs) := init key (calls st) in
          (Ret m, {| _instance := Some m; calls := cs |})
      end
  | Some m => (Ret m, st)
  end.

Definition reset (st : State) : result unit * State :=
  match _instance st with
  | Some {| _client := Some client |} =>
      match close ld (calls st) client with
      | Exc e =>
          (Exc e, {| _instance := _instance st;
                     calls := calls st ++ [Close client] |})
      | Ret _ =>
          (Ret tt, {| _instance := None; calls := calls st ++ [Close client] |})
      end
  | _ => (Ret tt, {| _instance := None; calls := calls st |})
  end.

Definition is_enabled (self : FeatureFlagManager) (cs : list ld_call)
    : result bool * list ld_call :=
  match _client self with
  | None => (Ret false, cs)
  | Some client => (is_initialized ld cs client, cs ++ [IsInitialized client])
  end.

Definition build_context (project_id org_id : option context_key) : Context :=
  foldl (fun multi_builder kv =>
           match kv.2 with
           | Some value => multi_builder ++ [(kv.1, value)]
           | None => multi_builder
           end)
        [] [("projectId", project_id); ("orgId", org_id)].

(** [get_flag]: the bare [except] turns every exception of the
    evaluation into the default. *)
Definition get_flag (self : FeatureFlagManager) (flag_key : string)
    (default : pyval) (project_id org_id : option context_key)
    (cs : list ld_call) : pyval * list ld_call :=
  match is_enabled self cs with
  | (Ret true, cs') =>
      match _client self with
      | Some client =>
          let context := build_context project_id org_id in
          (match variation ld cs' client flag_key context default with
           | Ret value => value
           | Exc _ => default
           end, cs' ++ [Variation client flag_key context default])
      | None => (default, cs')
      end
  | (Ret false, cs') => (default, cs')
  | (Exc _, cs') => (default, cs')
  end.



End Manager.

End FeatureFlags.

(** ** Sample worlds

    Concrete services and drivers on which the properties below are
    exercised. *)

Module Sample.

(** A table as its records and its column names. *)
Definition pd : Pandas :=
  {| DataFrame := list (gmap string pyval) * list string;
     pd_empty := ([], []);
     pd_DataFrame := fun data columns => (data, columns);
     pd_to_datetime := fun df _ => Ret df |}.

Definition snapshot (state : string) (count : member Z)
    (error reason : member string) : JobSnapshot :=
  {| jobState := Present state;
     rowCount := count;
     errorMessage := error;
     queryType := Present "REST";
     queueName := Absent;
     queueId := Absent;
     cancellationReason := reason |}.

(** The job a snapshot deserialises to. *)
Definition job (state : JobState) (count : option Z)
    (error reason : option string) : Job :=
  {| job_state := state;
     row_count := count;
     error_message := error;
     query_type := REST;
     queue_name := None;
     queue_id := None;
     cancellation_reason := reason |}.

(** The page of a result of [R] rows that a request asks for: the rows
    are numbered from the offset on. *)
Definition page (R : Z) (p : JobResultsParams) : JobResults :=
  let off := default 0 (offset p) in
  let k := Z.to_nat (Z.min (default 500 (limit p)) (R - off)) in
  {| jr_row_count := Z.of_nat k;
     result_schema :=
       Some [ {| rs_name := "col"; rs_type := {| rst_name := "INTEGER" |} |} ];
     rows := map (fun i : nat => {[ "col" := VInt (off + Z.of_nat i) ]}) (seq 0 k) |}.

(** A service whose job is RUNNING when first asked and has settled on
    [final] from the second status query on; the pages are answered
    last request first. *)
Definition svc (final : JobSnapshot) (R : Z) : Service :=
  {| post_sql := fun _ _ => Ret {| id := "j1" |};
     get_job := fun _ k =>
       Ret (if Nat.eqb k 0 then snapshot "RUNNING" Absent Absent Absent else final);
     get_page := fun _ p => Ret (page R p);
     completion_order := fun n => reverse (seq 0 n) |}.

Definition running : Job := job RUNNING (Some 0) None None.

(** A parser that knows one URI. *)
Definition lib : Urllib :=
  {| urlparse := fun _ =>
       {| scheme := "https"; netloc := "api.dremio.cloud"; path := "";
          params := ""; query := ""; fragment := "" |};
     geturl := fun u => scheme u +:+ "://" +:+ netloc u +:+ path u |}.

Definition cfg : Settings :=
  {| dremio_uri := "https://api.dremio.cloud";
     dremio_pat := "token";
     dremio_project_id := None;
     dremio_is_cloud := true |}.

(** A driver with one connection, one cursor and a table of two rows;
    [statement_ok] tells whether the statement runs. *)
Definition drv (statement_ok : bool) : Driver pd :=
  {| AUTHORIZATION_HEADER := "adbc.flight.sql.authorization_header";
     RPC_CALL_HEADER_PREFIX := "adbc.flight.sql.rpc.call_header.";
     OPTION_SESSION_OPTION_PREFIX := "adbc.flight.sql.session.option.";
     dbapi_connect := fun _ _ _ => Ret 1%nat;
     conn_cursor := fun _ => Ret 7%nat;
     cursor_execute := fun _ _ =>
       if statement_ok then Ret tt else Exc (DriverError "syntax error");
     cursor_fetchall := fun _ => Ret [ [VInt 1; VStr "a"]; [VInt 2; VStr "b"] ];
     cursor_fetch_df := fun _ => Ret (pd_empty pd);
     cursor_description := fun _ =>
       [ {| info0 := "id"; info1 := TypeCode "int64" |};
         {| info0 := "name"; info1 := TypeCode "string" |} ];
     cursor_close := fun _ => Ret tt;
     conn_close := fun _ => Ret tt |}.

End Sample.

(** Further sample worlds. *)

Module SampleMore.

(** A service whose job is RUNNING when first asked and whose second
    status query is refused. *)
Definition svc_refusing : Service :=
  {| post_sql := fun _ _ => Ret {| id := "j1" |};
     get_job := fun _ k =>
       if Nat.eqb k 0
       then Ret (Sample.snapshot "RUNNING" Absent Absent Absent)
       else Exc (TransportError "503");
     get_page := fun _ p => Ret (Sample.page 0 p);
     completion_order := fun n => seq 0 n |}.

(** The driver of [Sample.drv] with a cursor whose close raises. *)
Definition drv_stuck_cursor : Driver Sample.pd :=
  {| AUTHORIZATION_HEADER := "adbc.flight.sql.authorization_header";
     RPC_CALL_HEADER_PREFIX := "adbc.flight.sql.rpc.call_header.";
     OPTION_SESSION_OPTION_PREFIX := "adbc.flight.sql.session.option.";
     dbapi_connect := fun _ _ _ => Ret 1%nat;
     conn_cursor := fun _ => Ret 7%nat;
     cursor_execute := fun _ _ => Ret tt;
     cursor_fetchall := fun _ => Ret [ [VInt 1] ];
     cursor_fetch_df := fun _ => Ret (pd_empty Sample.pd);
     cursor_description := fun _ => [ {| info0 := "id"; info1 := TypeCode "int64" |} ];
     cursor_close := fun _ => Exc (DriverError "cursor is busy");
     conn_close := fun _ => Ret tt |}.

(** A LaunchDarkly whose client is initialised and whose flags are all
    on. *)
Definition ld : FeatureFlags.LaunchDarkly :=
  {| FeatureFlags.set_config := fun _ _ => Ret tt;
     FeatureFlags.get := fun _ _ => Ret 3%nat;
     FeatureFlags.is_initialized := fun _ _ => Ret true;
     FeatureFlags.variation := fun _ _ _ _ _ => Ret (VBool true);
     FeatureFlags.close := fun _ _ => Ret tt |}.

Definition fresh : FeatureFlags.State :=
  {| FeatureFlags._instance := None; FeatureFlags.calls := [] |}.

End SampleMore.

(** ** The job model *)

Lemma done_iff (job : Job) :
  done job = true <->
  job_state job = COMPLETED \/ job_state job = CANCELED \/ job_state job = FAILED.
Proof.
  unfold done. rewrite bool_decide_eq_true.
  rewrite !elem_of_cons, elem_of_nil. tauto.
Qed.

Lemma succeeded_iff (job : Job) :
  succeeded job = true <-> job_state job = COMPLETED.
Proof. unfold succeeded. apply bool_decide_eq_true. Qed.

(** C3. For every value of [JobState], [done] holds exactly on COMPLETED,
    CANCELED and FAILED and is false on each of the eleven other states;
    [succeeded] holds exactly on COMPLETED; and a succeeded job is done. *)
Theorem done_succeeded_by_state :
  forall job : Job,
    (done job = true <->
       job_state job = COMPLETED \/ job_state job = CANCELED \/ job_state job = FAILED)
    /\ done job =
         match job_state job with
         | COMPLETED | CANCELED | FAILED => true
         | NOT_SUBMITTED | STARTING | RUNNING | CANCELLATION_REQUESTED
         | PLANNING | PENDING | METADATA_RETRIEVAL | QUEUED | ENGINE_START
         | EXECUTION_PLANNING | INVALID_STATE => false
         end
    /\ (succeeded job = true <-> job_state job = COMPLETED)
    /\ (succeeded job = true -> done job = true).
Proof.
  intros job. split; [apply done_iff |]. split.
  - unfold done. destruct (job_state job); reflexivity.
  - split; [apply succeeded_iff |].
    intros H. apply succeeded_iff in H. apply done_iff. now left.
Qed.

(** ** The polling loop *)

Lemma bind_unfold {A B : Type} (c : M A) (k : A -> M B) (t : trace) :
  (c ≫= k) t =
  match c t with
  | (Done a, t') => k a t'
  | (Raised e, t') => (Raised e, t')
  | (Pending, t') => (Pending, t')
  end.
Proof. reflexivity. Qed.

Lemma bind_lift_ret {A B : Type} (a : A) (k : A -> M B) (t : trace) :
  (lift (Ret a) ≫= k) t = k a t.
Proof. reflexivity. Qed.

Lemma polls_app (url : string) (t1 t2 : trace) :
  polls url (t1 ++ t2) = (polls url t1 + polls url t2)%nat.
Proof.
  induction t1 as [|e t1 IH]; simpl; [reflexivity |].
  destruct e as [| u [p|] | | | | | | | |]; try exact IH.
  destruct (String.eqb u url); simpl; congruence.
Qed.

Lemma polls_poll_trace_step (url : string) (t : trace) :
  polls url ((t ++ [HttpGet url None]) ++ [Sleep]) = S (polls url t).
Proof.
  rewrite !polls_app. simpl. rewrite String.eqb_refl. lia.
Qed.

Lemma page_requests_app (t1 t2 : trace) :
  page_requests (t1 ++ t2) = page_requests t1 ++ page_requests t2.
Proof.
  induction t1 as [|e t1 IH]; simpl; [reflexivity |].
  destruct e as [| u [p|] | | | | | | | |]; simpl; congruence.
Qed.

Lemma page_requests_poll_trace (url : string) (n : nat) :
  page_requests (poll_trace url n) = [].
Proof. induction n; simpl; auto. Qed.

Section Polling.

Context (pd : Pandas) (svc : Service).

Lemma client_get_job_unfold (url : string) (t : trace) :
  client_get_job svc url t =
  (match job_at svc url (polls url t) with
   | Ret job => Done job
   | Exc e => Raised e
   end, t ++ [HttpGet url None]).
Proof.
  unfold client_get_job, job_at. rewrite bind_unfold. unfold call.
  destruct (get_job svc url (polls url t)) as [s|e]; [|reflexivity].
  destruct (Job_validate s); reflexivity.
Qed.

(** Enough fuel lets the loop reach the snapshot the job settles on. *)
Lemma poll_settles (url : string) (n : nat) (job : Job) :
  forall (p fuel : nat) (t : trace),
    settles svc url p n job ->
    polls url t = p ->
    (n <= fuel)%nat ->
    (client_get_job svc url ≫= poll svc fuel url) t =
    (Done job, t ++ HttpGet url None :: poll_trace url n).
Proof.
  intros p fuel t Hs. revert fuel t.
  induction Hs as [p job Hat Hdone | p n job0 job Hat Hnot Hs IH];
    intros fuel t Hp Hfuel.
  - rewrite bind_unfold, client_get_job_unfold, Hp, Hat.
    destruct fuel; simpl; rewrite Hdone; reflexivity.
  - destruct fuel as [|fuel]; [lia |].
    rewrite bind_unfold, client_get_job_unfold, Hp, Hat.
    simpl poll. rewrite Hnot.
    change (call Sleep (Ret ()) ≫= (fun _ => client_get_job svc url ≫= poll svc fuel url))
      with (call (A := unit) Sleep (Ret tt) ≫= (fun _ => client_get_job svc url ≫= poll svc fuel url)).
    rewrite bind_unfold. unfold call at 1.
    etransitivity;
      [apply (IH fuel ((t ++ [HttpGet url None]) ++ [Sleep]));
       [rewrite polls_poll_trace_step; congruence | lia] |].
    rewrite <- !app_assoc. reflexivity.
Qed.

Lemma get_results_settles (fuel n : nat) (project_id : option string)
    (qs : QuerySubmission + string) (use_df : bool) (uri pat : option string)
    (job : Job) (t : trace) :
  let url := job_url project_id (submission_id qs) in
  settles svc url (polls url t) n job ->
  (n <= fuel)%nat ->
  get_results pd svc fuel project_id qs use_df uri pat t =
  assemble pd svc job project_id {| id := submission_id qs |} use_df uri pat
    (t ++ HttpGet url None :: poll_trace url n).
Proof.
  intros url Hs Hfuel. unfold get_results.
  assert (match qs with inl q => q | inr s => {| id := s |} end
          = {| id := submission_id qs |}) as ->.
  { destruct qs as [[q]|s]; reflexivity. }
  simpl id. fold (job_url project_id (submission_id qs)). fold url.
  transitivity
    (((client_get_job svc url ≫= poll svc fuel url) ≫=
        (fun j => assemble pd svc j project_id {| id := submission_id qs |}
                    use_df uri pat)) t).
  - rewrite !bind_unfold.
    destruct (client_get_job svc url t) as [[j|e|] t']; reflexivity.
  - rewrite bind_unfold, (poll_settles _ _ _ _ fuel t Hs eq_refl Hfuel).
    reflexivity.
Qed.

Lemma assemble_empty (job : Job) (project_id : option string)
    (qs : QuerySubmission) (use_df : bool) (uri pat : option string) (t : trace) :
  succeeded job = true ->
  row_count job = Some 0 ->
  assemble pd svc job project_id qs use_df uri pat t =
  (Done (if use_df then Frame (pd_empty pd) else Wrapper []), t).
Proof.
  intros Hs Hr. unfold assemble. rewrite Hs, Hr. cbn [negb].
  rewrite bool_decide_eq_true_2 by reflexivity. reflexivity.
Qed.

Lemma assemble_failed (job : Job) (project_id : option string)
    (qs : QuerySubmission) (use_df : bool) (uri pat : option string) (t : trace) :
  succeeded job = false ->
  assemble pd svc job project_id qs use_df uri pat t =
  (Raised (RuntimeError ("Job " +:+ id qs +:+ " failed: " +:+ fmt (emsg job))), t).
Proof. intros Hs. unfold assemble. rewrite Hs. reflexivity. Qed.

Lemma to_frame_trace (jr : JobResultsWrapper) (t : trace) :
  (to_frame pd jr t).2 = t.
Proof.
  unfold to_frame. destruct jr as [|jr0 jr]; [reflexivity |].
  destruct (result_schema jr0) as [schema|]; [| reflexivity].
  rewrite bind_unfold.
  match goal with |- context [lift ?r] => destruct r as [df|e] end; reflexivity.
Qed.

(** The pages of a successful job with [R > 0] rows: the offsets are
    those of [range(0, R, P)] and every request is on the trace once
    the fan-out has started. *)
Lemma assemble_pages (job : Job) (project_id : option string)
    (qs : QuerySubmission) (use_df : bool) (uri pat : option string)
    (R : Z) (t : trace) :
  succeeded job = true ->
  row_count job = Some R ->
  0 < R ->
  let P := Z.min 500 R in
  assemble pd svc job project_id qs use_df uri pat t =
  (run_in_parallel svc
     (map (fun off => _fetch_results svc uri pat project_id (id qs) off P)
          (range_up (Z.to_nat R) 0 R P)) ≫=
   (fun results =>
      if use_df then to_frame pd (chain [results])
      else ret (Wrapper (chain [results])))) t.
Proof.
  intros Hs Hr HR P. unfold assemble. rewrite Hs, Hr. cbn [negb].
  rewrite bool_decide_eq_false_2 by (intros [= ?]; lia).
  unfold Py.min, int_arg.
  assert ((if R <? 500 then R else 500) = P) as ->.
  { unfold P. destruct (Z.ltb_spec R 500); lia. }
  assert (0 < P) as HP by (unfold P; lia).
  rewrite !bind_lift_ret. unfold Py.range.
  destruct (Z.eqb_spec P 0) as [|_]; [lia |].
  destruct (Z.ltb_spec 0 P) as [_|]; [| lia].
  rewrite bind_lift_ret, Z.sub_0_r. reflexivity.
Qed.

(** A settled, successful job without rows: the polling requests are
    the only ones. *)
Lemma get_results_no_rows (fuel n : nat) (project_id : option string)
    (qs : QuerySubmission + string) (use_df : bool) (uri pat : option string)
    (job : Job) (t : trace) :
  settles svc (job_url project_id (submission_id qs))
    (polls (job_url project_id (submission_id qs)) t) n job ->
  (n <= fuel)%nat ->
  succeeded job = true ->
  row_count job = Some 0 ->
  get_results pd svc fuel project_id qs use_df uri pat t =
  (Done (if use_df then Frame (pd_empty pd) else Wrapper []),
   t ++ HttpGet (job_url project_id (submission_id qs)) None
     :: poll_trace (job_url project_id (submission_id qs)) n).
Proof.
  intros Hs Hfuel Hsucc Hrow.
  rewrite (get_results_settles fuel n _ _ _ _ _ job t Hs Hfuel).
  now apply assemble_empty.
Qed.

Lemma settles_last (url : string) (p n : nat) (job : Job) :
  settles svc url p n job -> job_at svc url (p + n) = Ret job.
Proof.
  induction 1 as [p job Hat _ | p n job0 job _ _ _ IH].
  - now rewrite Nat.add_0_r.
  - now rewrite Nat.add_succ_r.
Qed.

End Polling.

(** ** The offsets of the pages *)

(** [ceil_div a b] is the least [q] with [a <= q * b]. *)
Lemma ceil_div_spec (a b : Z) :
  0 < b -> (ceil_div a b - 1) * b < a <= ceil_div a b * b.
Proof.
  intros Hb. unfold ceil_div.
  pose proof (Z.div_mod (a + b - 1) b ltac:(lia)) as Hdm.
  pose proof (Z.mod_pos_bound (a + b - 1) b Hb) as Hmod.
  nia.
Qed.

Lemma ceil_div_nonpos_arg (step : Z) : 0 < step -> ceil_div 0 step = 0.
Proof. intros H. unfold ceil_div. apply Z.div_small. lia. Qed.

Lemma ceil_div_step (x step : Z) :
  0 < step -> 0 < x ->
  ceil_div x step = 1 + ceil_div (Z.max 0 (x - step)) step.
Proof.
  intros Hs Hx. unfold ceil_div.
  destruct (Z.le_gt_cases x step) as [Hle | Hgt].
  - rewrite Z.max_l by lia.
    rewrite (Z.div_small (0 + step - 1)) by lia.
    symmetry. apply Z.div_unique with (r := x - 1); lia.
  - rewrite Z.max_r by lia.
    replace (x + step - 1) with ((x - step + step - 1) + 1 * step) by lia.
    rewrite Z.div_add by lia. lia.
Qed.

Lemma range_up_length (step stop : Z) (fuel : nat) :
  0 < step ->
  forall cur : Z,
    (Z.to_nat (stop - cur) <= fuel)%nat ->
    Z.of_nat (length (range_up fuel cur stop step)) =
    ceil_div (Z.max 0 (stop - cur)) step.
Proof.
  intros Hs. induction fuel as [|fuel IH]; intros cur Hf; simpl.
  - rewrite Z.max_l by lia. now rewrite ceil_div_nonpos_arg.
  - destruct (Z.ltb_spec cur stop) as [Hlt | Hge].
    + simpl length. rewrite Nat2Z.inj_succ, IH by lia.
      rewrite (Z.max_r 0 (stop - cur)) by lia.
      rewrite (ceil_div_step (stop - cur) step) by lia.
      replace (stop - (cur + step)) with (stop - cur - step) by lia. lia.
    + rewrite Z.max_l by lia. now rewrite ceil_div_nonpos_arg.
Qed.

(** The offsets are [cur], [cur + step], [cur + 2 * step], ... *)
Lemma range_up_items (step stop : Z) (fuel : nat) :
  forall cur : Z,
    range_up fuel cur stop step =
    map (fun i : nat => cur + Z.of_nat i * step)
        (seq 0 (length (range_up fuel cur stop step))).
Proof.
  induction fuel as [|fuel IH]; intros cur; simpl; [reflexivity |].
  destruct (cur <? stop); [| reflexivity].
  simpl. f_equal; [lia |].
  rewrite <- seq_shift, map_map. rewrite IH at 1.
  apply map_ext. intros i. lia.
Qed.

Lemma range_up_bounds (step stop : Z) (fuel : nat) :
  0 < step ->
  forall cur : Z,
    Forall (fun off => cur <= off < stop) (range_up fuel cur stop step).
Proof.
  intros Hs. induction fuel as [|fuel IH]; intros cur; simpl; [constructor |].
  destruct (Z.ltb_spec cur stop) as [Hlt | Hge]; [| constructor].
  constructor; [lia |].
  eapply Forall_impl; [apply IH |]. simpl. intros off H. lia.
Qed.

(** The rows of the pages add up to the rows between [cur] and [stop]. *)
Lemma range_up_rows (step stop : Z) (fuel : nat) :
  0 < step ->
  forall cur : Z,
    (Z.to_nat (stop - cur) <= fuel)%nat ->
    foldr (fun off acc => Z.min step (stop - off) + acc) 0
          (range_up fuel cur stop step) =
    Z.max 0 (stop - cur).
Proof.
  intros Hs. induction fuel as [|fuel IH]; intros cur Hf; simpl.
  - lia.
  - destruct (Z.ltb_spec cur stop) as [Hlt | Hge]; simpl; [| lia].
    rewrite IH by lia. lia.
Qed.

(** ** The concurrent fan-out *)

Lemma collect_filled {A : Type} (l : list A) :
  collect (map Some l) = Done l.
Proof. induction l as [|a l IH]; simpl; [reflexivity |]. now rewrite IH. Qed.

(** When every coroutine is answered with a value, the slots end up
    holding the value of each coroutine whose index is in the completion
    order, whatever that order. *)
Lemma gather_answers {A : Type} (cs : list (coroutine A)) (values : list A) :
  Forall2 (fun c a => answer c = Ret a) cs values ->
  forall (order : list nat) (slots : list (option A)),
    length slots = length cs ->
    exists final : list (option A),
      gather cs order slots = Done final /\
      length final = length cs /\
      forall i : nat,
        final !! i =
        if decide (i ∈ order) then Some <$> values !! i else slots !! i.
Proof.
  intros Hans order. induction order as [|i order IH]; intros slots Hlen; simpl.
  - exists slots. split; [reflexivity |]. split; [assumption |].
    intros i. destruct (decide (i ∈ [])) as [Hin|_]; [| reflexivity].
    now apply elem_of_nil in Hin.
  - destruct (cs !! i) as [c|] eqn:Hc.
    + destruct (Forall2_lookup_l _ _ _ _ _ Hans Hc) as (a & Ha & Hca).
      rewrite Hca.
      destruct (IH (<[i := Some a]> slots)) as (final & Hg & Hl & Hfinal).
      { now rewrite length_insert. }
      exists final. split; [assumption |]. split; [assumption |].
      intros j. rewrite Hfinal.
      destruct (decide (j ∈ order)) as [Hin | Hnin].
      * rewrite decide_True by (apply elem_of_cons; now right). reflexivity.
      * destruct (decide (j = i)) as [-> | Hne].
        -- rewrite decide_True by (apply elem_of_cons; now left).
           rewrite list_lookup_insert_eq, Ha; [reflexivity |].
           apply lookup_lt_Some in Hc. lia.
        -- rewrite list_lookup_insert_ne by congruence.
           rewrite decide_False; [reflexivity |].
           rewrite elem_of_cons. tauto.
    + destruct (IH slots Hlen) as (final & Hg & Hl & Hfinal).
      exists final. split; [assumption |]. split; [assumption |].
      intros j. rewrite Hfinal.
      destruct (decide (j ∈ order)) as [Hin | Hnin].
      * rewrite decide_True by (apply elem_of_cons; now right). reflexivity.
      * destruct (decide (j = i)) as [-> | Hne].
        -- rewrite decide_True by (apply elem_of_cons; now left).
           apply lookup_ge_None in Hc.
           rewrite (lookup_ge_None_2 slots i) by lia.
           apply Forall2_length in Hans.
           rewrite (lookup_ge_None_2 values i) by lia. reflexivity.
        -- rewrite decide_False; [reflexivity |].
           rewrite elem_of_cons. tauto.
Qed.

(** If all the coroutines are answered, in any order, each with a value,
    the fan-out returns the values in the order of the coroutines. *)
Lemma run_in_parallel_values {A : Type} (svc : Service)
    (cs : list (coroutine A)) (values : list A) (t : trace) :
  completion_order svc (length cs) ≡ₚ seq 0 (length cs) ->
  Forall2 (fun c a => answer c = Ret a) cs values ->
  run_in_parallel svc cs t = (Done values, t ++ map issued cs).
Proof.
  intros Hperm Hans. unfold run_in_parallel.
  destruct (gather_answers cs values Hans (completion_order svc (length cs))
              (replicate (length cs) None)) as (final & Hg & Hl & Hfinal).
  { apply length_replicate. }
  rewrite Hg.
  assert (final = map Some values) as ->; [| now rewrite collect_filled].
  apply list_eq. intros i. rewrite Hfinal, list_lookup_fmap.
  destruct (decide (i ∈ completion_order svc (length cs))) as [Hin | Hnin];
    [reflexivity |].
  assert (length cs <= i)%nat as Hge.
  { destruct (Nat.le_gt_cases (length cs) i) as [H | H]; [assumption |].
    exfalso. apply Hnin. rewrite Hperm. apply elem_of_seq. lia. }
  rewrite (lookup_ge_None_2 (replicate (length cs) None) i)
    by (rewrite length_replicate; lia).
  apply Forall2_length in Hans.
  rewrite (lookup_ge_None_2 values i) by lia. reflexivity.
Qed.

(** ** The paginated fetcher *)

Lemma pages_exist {A B : Type} (Q : A -> B -> Prop) (l : list A) :
  (forall a, a ∈ l -> exists b, Q a b) ->
  exists bs : list B, Forall2 Q l bs.
Proof.
  induction l as [|a l IH]; intros H.
  - exists []. constructor.
  - destruct (H a) as [b Hb]; [apply elem_of_cons; now left |].
    destruct IH as [bs Hbs].
    { intros a' Ha'. apply H. apply elem_of_cons. now right. }
    exists (b :: bs). now constructor.
Qed.

Lemma all_rows_length (f : Z -> Z) (offsets : list Z) (pages : JobResultsWrapper) :
  Forall2 (fun off page => Z.of_nat (length (rows page)) = f off) offsets pages ->
  Z.of_nat (length (all_rows pages)) = foldr (fun off acc => f off + acc) 0 offsets.
Proof.
  unfold all_rows. induction 1 as [|off page offsets pages Hhd Htl IH]; simpl.
  - reflexivity.
  - rewrite length_app, Nat2Z.inj_add, IH, Hhd. reflexivity.
Qed.

Lemma range_offsets (R P : Z) :
  0 < P -> 0 < R ->
  range_up (Z.to_nat R) 0 R P = page_offsets P (Z.to_nat (ceil_div R P)).
Proof.
  intros HP HR. rewrite range_up_items. unfold page_offsets.
  assert (length (range_up (Z.to_nat R) 0 R P) = Z.to_nat (ceil_div R P)) as ->.
  { apply Nat2Z.inj. rewrite range_up_length by lia.
    rewrite Z.sub_0_r, Z.max_r by lia.
    rewrite Z2Nat.id; [reflexivity |].
    unfold ceil_div. apply Z.div_pos; lia. }
  apply map_ext. intros i. lia.
Qed.

Section Fetcher.

Context (pd : Pandas) (svc : Service).

Lemma fan_out_trace {A B : Type} (cs : list (coroutine A)) (k : list A -> M B)
    (t : trace) :
  (forall r t', (k r t').2 = t') ->
  ((run_in_parallel svc cs ≫= k) t).2 = t ++ map issued cs.
Proof.
  intros Hk. rewrite bind_unfold. unfold run_in_parallel.
  destruct (gather cs (completion_order svc (length cs))
              (replicate (length cs) None)) as [slots|e|]; try reflexivity.
  destruct (collect slots) as [l|e|]; try reflexivity. apply Hk.
Qed.

(** The retrieval of a settled, successful job with [R > 0] rows is
    the fan-out over the offsets [0], [P], [2 * P], ... *)
Lemma get_results_pages (fuel n : nat) (project_id : option string)
    (qs : QuerySubmission + string) (use_df : bool) (uri pat : option string)
    (job : Job) (R : Z) (t : trace) :
  settles svc (job_url project_id (submission_id qs))
    (polls (job_url project_id (submission_id qs)) t) n job ->
  (n <= fuel)%nat ->
  succeeded job = true ->
  row_count job = Some R ->
  0 < R ->
  get_results pd svc fuel project_id qs use_df uri pat t =
  (run_in_parallel svc
     (map (fun off =>
             _fetch_results svc uri pat project_id (submission_id qs) off
               (Z.min 500 R))
          (page_offsets (Z.min 500 R) (Z.to_nat (ceil_div R (Z.min 500 R))))) ≫=
   (fun results =>
      if use_df then to_frame pd (chain [results])
      else ret (Wrapper (chain [results]))))
    (t ++ HttpGet (job_url project_id (submission_id qs)) None
       :: poll_trace (job_url project_id (submission_id qs)) n).
Proof.
  intros Hs Hfuel Hsucc Hrow HR.
  rewrite (get_results_settles pd svc fuel n _ _ _ _ _ job t Hs Hfuel).
  rewrite (assemble_pages pd svc job _ _ _ _ _ R _ Hsucc Hrow HR).
  rewrite range_offsets by lia. reflexivity.
Qed.

(** C1. A successful job with [R > 0] rows: the page size is
    [P = min(500, R)]; the fetcher issues [ceil(R / P)] page requests
    (the least number of pages of [P] rows that hold [R] rows) and
    nothing else after the polling, one for each offset [0], [P],
    [2 * P], ... below [R], each with limit [P]; and when every page
    is answered with the rows asked for that exist from its offset on,
    the rows of the assembled result set are [R] in number. *)
Theorem paginated_fetch (fuel n : nat) (project_id : option string)
    (qs : QuerySubmission + string) (use_df : bool) (uri pat : option string)
    (job : Job) (R : Z) (t : trace) :
  settles svc (job_url project_id (submission_id qs))
    (polls (job_url project_id (submission_id qs)) t) n job ->
  (n <= fuel)%nat ->
  succeeded job = true ->
  row_count job = Some R ->
  0 < R ->
  let P := Z.min 500 R in
  let count := Z.to_nat (ceil_div R P) in
  let run := get_results pd svc fuel project_id qs use_df uri pat t in
  (ceil_div R P - 1) * P < R <= ceil_div R P * P
  /\ (exists fetches : trace,
      run.2 = t ++ HttpGet (job_url project_id (submission_id qs)) None
                :: poll_trace (job_url project_id (submission_id qs)) n
                ++ fetches
      /\ Z.of_nat (length fetches) = ceil_div R P
      /\ fetches =
         map (fun off =>
                HttpGet (results_url project_id (submission_id qs))
                  (Some {| offset := Some off; limit := Some P |}))
             (page_offsets P count))
  /\ Forall (fun off => 0 <= off < R) (page_offsets P count)
  /\ (use_df = false ->
      completion_order svc count ≡ₚ seq 0 count ->
      (forall off, off ∈ page_offsets P count ->
         exists page,
           get_page svc (results_url project_id (submission_id qs))
             {| offset := Some off; limit := Some P |} = Ret page
           /\ Z.of_nat (length (rows page)) = Z.min P (R - off)) ->
      exists jr : JobResultsWrapper,
        run.1 = Done (Wrapper jr) /\ Z.of_nat (length (all_rows jr)) = R).
Proof.
  intros Hs Hfuel Hsucc Hrow HR P count run.
  assert (0 < P) as HP by (unfold P; lia).
  assert (0 <= ceil_div R P) as Hceil by (unfold ceil_div; apply Z.div_pos; lia).
  pose proof (range_offsets R P HP HR) as Hoffs. fold count in Hoffs.
  assert (run = _) as Hrun
    by exact (get_results_pages fuel n _ _ use_df uri pat job R t
                Hs Hfuel Hsucc Hrow HR).
  fold P in Hrun. fold count in Hrun.
  split; [apply ceil_div_spec; exact HP |].
  split; [| split].
  - eexists. split; [| split; [| reflexivity]].
    + rewrite Hrun, fan_out_trace.
      * rewrite map_map, <- app_assoc. reflexivity.
      * intros r t'. destruct use_df; [apply to_frame_trace | reflexivity].
    + rewrite length_map. unfold page_offsets.
      rewrite length_map, length_seq. unfold count. now rewrite Z2Nat.id.
  - rewrite <- Hoffs. apply range_up_bounds. exact HP.
  - intros -> Hperm Hpages.
    destruct (pages_exist _ _ Hpages) as [pages Hall].
    exists pages. split.
    + rewrite Hrun, bind_unfold.
      rewrite (run_in_parallel_values svc _ pages).
      * unfold chain. simpl. now rewrite app_nil_r.
      * rewrite length_map. unfold page_offsets at 1 2.
        rewrite length_map, length_seq. exact Hperm.
      * apply Forall2_fmap_l. eapply Forall2_impl; [exact Hall |].
        simpl. intros off page [Hget _]. exact Hget.
    + rewrite (all_rows_length (fun off => Z.min P (R - off)) (page_offsets P count)).
      * rewrite <- Hoffs, range_up_rows by lia. lia.
      * eapply Forall2_impl; [exact Hall |]. simpl. intros off page [_ Hlen].
        exact Hlen.
Qed.

(** C4. A successful job with no row: the retrieval returns the empty
    result set, or the empty table in tabular mode, as soon as the
    polling ends, and puts no page request on the trace. *)
Theorem empty_result_fast_path (fuel n : nat) (project_id : option string)
    (qs : QuerySubmission + string) (use_df : bool) (uri pat : option string)
    (job : Job) (t : trace) :
  settles svc (job_url project_id (submission_id qs))
    (polls (job_url project_id (submission_id qs)) t) n job ->
  (n <= fuel)%nat ->
  succeeded job = true ->
  row_count job = Some 0 ->
  let run := get_results pd svc fuel project_id qs use_df uri pat t in
  run.1 = Done (if use_df then Frame (pd_empty pd) else Wrapper [])
  /\ run.2 = t ++ HttpGet (job_url project_id (submission_id qs)) None
               :: poll_trace (job_url project_id (submission_id qs)) n
  /\ page_requests run.2 = page_requests t.
Proof.
  intros Hs Hfuel Hsucc Hrow run. unfold run.
  rewrite (get_results_no_rows pd svc fuel n _ _ _ _ _ job t) by assumption.
  simpl. split; [reflexivity |]. split; [reflexivity |].
  rewrite page_requests_app. simpl.
  rewrite page_requests_poll_trace. apply app_nil_r.
Qed.

End Fetcher.

(** ** Snapshots without a row count *)

Lemma Job_validate_row_count (snapshot : JobSnapshot) (job : Job) :
  Job_validate snapshot = Ret job ->
  row_count job = optional_field (Some 0) (rowCount snapshot).
Proof.
  unfold Job_validate.
  destruct (required_enum "jobState" JobState_of_string (jobState snapshot));
    [| discriminate].
  destruct (required_enum "queryType" QueryType_of_string (queryType snapshot));
    [| discriminate].
  intros [= <-]. reflexivity.
Qed.

Lemma Job_validate_job_state (snapshot : JobSnapshot) (job : Job) (s : string) :
  Job_validate snapshot = Ret job ->
  jobState snapshot = Present s ->
  JobState_of_string s = Some (job_state job).
Proof.
  unfold Job_validate, required_enum. intros Hv Hs. rewrite Hs in Hv.
  destruct (JobState_of_string s) as [st|]; [| discriminate].
  destruct (queryType snapshot) as [| |q]; try discriminate.
  destruct (QueryType_of_string q); [| discriminate].
  injection Hv as <-. reflexivity.
Qed.

Section AbsentRowCount.

Context (pd : Pandas) (svc : Service).

(** C10. A snapshot without a [rowCount] member deserialises to a job
    whose [row_count] is 0; and when the polling ends on such a
    snapshot of a COMPLETED job, the retrieval returns the empty result
    (the empty table in tabular mode) and puts no page request on the
    trace: it neither raises nor fetches. *)
Theorem absent_row_count (snapshot : JobSnapshot) :
  rowCount snapshot = Absent ->
  (forall job : Job, Job_validate snapshot = Ret job -> row_count job = Some 0)
  /\ (forall (fuel n : nat) (project_id : option string)
             (qs : QuerySubmission + string) (use_df : bool)
             (uri pat : option string) (job : Job) (t : trace),
        let url := job_url project_id (submission_id qs) in
        let run := get_results pd svc fuel project_id qs use_df uri pat t in
        settles svc url (polls url t) n job ->
        get_job svc url (polls url t + n) = Ret snapshot ->
        jobState snapshot = Present "COMPLETED" ->
        (n <= fuel)%nat ->
        run.1 = Done (if use_df then Frame (pd_empty pd) else Wrapper [])
        /\ run.2 = t ++ HttpGet url None :: poll_trace url n
        /\ page_requests run.2 = page_requests t).
Proof.
  intros Habs.
  assert (forall job, Job_validate snapshot = Ret job -> row_count job = Some 0)
    as Hzero.
  { intros job Hv. rewrite (Job_validate_row_count _ _ Hv), Habs. reflexivity. }
  split; [exact Hzero |].
  intros fuel n project_id qs use_df uri pat job t url run Hs Hget Hstate Hfuel.
  pose proof (settles_last svc _ _ _ _ Hs) as Hlast.
  unfold job_at in Hlast. fold url in Hlast. rewrite Hget in Hlast.
  assert (succeeded job = true) as Hsucc.
  { apply succeeded_iff.
    pose proof (Job_validate_job_state _ _ _ Hlast Hstate) as Hst.
    assert (JobState_of_string "COMPLETED" = Some COMPLETED) as Hc
      by reflexivity.
    congruence. }
  unfold run.
  rewrite (get_results_no_rows pd svc fuel n _ _ _ _ _ job t Hs Hfuel Hsucc
             (Hzero job Hlast)).
  simpl. fold url. split; [reflexivity |]. split; [reflexivity |].
  rewrite page_requests_app. simpl.
  rewrite page_requests_poll_trace. apply app_nil_r.
Qed.

End AbsentRowCount.

(** ** Failed and cancelled jobs *)

Section Failure.

Context (pd : Pandas) (svc : Service).

(** A job that settles on a state other than COMPLETED makes the
    retrieval raise, with the message [emsg] resolves. *)
Lemma get_results_failure (fuel n : nat) (project_id : option string)
    (qs : QuerySubmission + string) (use_df : bool) (uri pat : option string)
    (job : Job) (t : trace) :
  settles svc (job_url project_id (submission_id qs))
    (polls (job_url project_id (submission_id qs)) t) n job ->
  (n <= fuel)%nat ->
  succeeded job = false ->
  (get_results pd svc fuel project_id qs use_df uri pat t).1 =
  Raised (RuntimeError
            ("Job " +:+ submission_id qs +:+ " failed: " +:+ fmt (emsg job))).
Proof.
  intros Hs Hfuel Hfail.
  rewrite (get_results_settles pd svc fuel n _ _ _ _ _ job t Hs Hfuel).
  now rewrite assemble_failed.
Qed.

(** The message: the error message of the job when it is a non-empty
    string; otherwise the cancellation reason, as it is, of a CANCELED
    job, and "Unknown error" for every other state. *)
Lemma emsg_cases (job : Job) :
  (truthy (error_message job) = true -> emsg job = error_message job)
  /\ (truthy (error_message job) = false -> job_state job = CANCELED ->
      emsg job = cancellation_reason job)
  /\ (truthy (error_message job) = false -> job_state job <> CANCELED ->
      emsg job = Some "Unknown error").
Proof.
  unfold emsg. repeat split; intros H; rewrite H; try reflexivity.
  - intros Hc. now rewrite bool_decide_eq_true_2.
  - intros Hc. now rewrite bool_decide_eq_false_2.
Qed.

End Failure.

(** ** Concurrent and sequential retrieval *)

Section Refinement.

Context {A : Type}.

Implicit Types (cs : list (coroutine A)) (values : list A).

(** Either every coroutine is answered with a value or one of them is
    answered with an exception. *)
Lemma answers_cases cs :
  (exists values, Forall2 (fun c a => answer c = Ret a) cs values)
  \/ (exists i c e, cs !! i = Some c /\ answer c = Exc e).
Proof.
  induction cs as [|c cs IH].
  - left. exists []. constructor.
  - destruct (answer c) as [a|e] eqn:Hc.
    + destruct IH as [[values Hv] | (i & c' & e & Hi & He)].
      * left. exists (a :: values). now constructor.
      * right. exists (S i), c', e. now split.
    + right. exists O, c, e. now split.
Qed.

Lemma gather_raises cs (order : list nat) :
  (exists i c e, i ∈ order /\ cs !! i = Some c /\ answer c = Exc e) ->
  forall slots : list (option A),
    exists e', gather cs order slots = Raised e'.
Proof.
  induction order as [|i0 order IH]; intros (i & c & e & Hin & Hc & He) slots.
  - now apply elem_of_nil in Hin.
  - simpl. apply elem_of_cons in Hin.
    destruct (cs !! i0) as [c0|] eqn:Hc0.
    + destruct (answer c0) as [a|e0] eqn:Ha0; [| now exists e0].
      apply IH. exists i, c, e. split; [| now split].
      destruct Hin as [-> | Hin]; [congruence | exact Hin].
    + apply IH. exists i, c, e. split; [| now split].
      destruct Hin as [-> | Hin]; [congruence | exact Hin].
Qed.

Lemma run_in_parallel_raises (svc : Service) cs (t : trace) :
  completion_order svc (length cs) ≡ₚ seq 0 (length cs) ->
  (exists i c e, cs !! i = Some c /\ answer c = Exc e) ->
  exists e', (run_in_parallel svc cs t).1 = Raised e'.
Proof.
  intros Hperm (i & c & e & Hc & He). unfold run_in_parallel.
  destruct (gather_raises cs (completion_order svc (length cs)))
    with (slots := replicate (length cs) (@None A)) as [e' He'].
  - exists i, c, e. split; [| now split].
    rewrite Hperm. apply elem_of_seq. apply lookup_lt_Some in Hc. lia.
  - rewrite He'. now exists e'.
Qed.

Lemma fetch_sequentially_values cs values (t : trace) :
  Forall2 (fun c a => answer c = Ret a) cs values ->
  fetch_sequentially cs t = (Done values, t ++ map issued cs).
Proof.
  intros H. revert t.
  induction H as [|c a cs values Hc _ IH]; intros t; simpl.
  - now rewrite app_nil_r.
  - rewrite bind_unfold. unfold await, call. rewrite Hc.
    rewrite bind_unfold, IH, <- app_assoc. reflexivity.
Qed.

Lemma fetch_sequentially_raises cs :
  (exists i c e, cs !! i = Some c /\ answer c = Exc e) ->
  forall t : trace, exists e', (fetch_sequentially cs t).1 = Raised e'.
Proof.
  induction cs as [|c0 cs IH]; intros (i & c & e & Hc & He) t.
  - discriminate.
  - simpl. rewrite bind_unfold. unfold await, call.
    destruct (answer c0) as [a|e0] eqn:Ha0; [| now exists e0].
    destruct i as [|i]; [simpl in Hc; congruence |].
    destruct (IH (ex_intro _ i (ex_intro _ c (ex_intro _ e (conj Hc He))))
                (t ++ [issued c0])) as [e' He'].
    rewrite bind_unfold.
    destruct (fetch_sequentially cs (t ++ [issued c0])) as [[l|x|] t'];
      simpl in He'; try discriminate.
    exists x. reflexivity.
Qed.

(** Whatever the order in which the answers arrive, the fan-out returns
    a list exactly when the sequential retrieval returns it, and raises
    exactly when the sequential retrieval raises. *)
Lemma fan_out_refines (svc : Service) cs (t t0 : trace) :
  completion_order svc (length cs) ≡ₚ seq 0 (length cs) ->
  (forall values,
      (run_in_parallel svc cs t).1 = Done values <->
      (fetch_sequentially cs t0).1 = Done values)
  /\ (forall values,
        (run_in_parallel svc cs t).1 = Done values ->
        Forall2 (fun c a => answer c = Ret a) cs values)
  /\ ((exists e, (run_in_parallel svc cs t).1 = Raised e) <->
      (exists e, (fetch_sequentially cs t0).1 = Raised e)).
Proof.
  intros Hperm.
  destruct (answers_cases cs) as [[vs Hvs] | Hexc].
  - rewrite (run_in_parallel_values svc cs vs t Hperm Hvs).
    rewrite (fetch_sequentially_values cs vs t0 Hvs). simpl.
    split; [tauto |]. split.
    + intros values [= <-]. exact Hvs.
    + split; intros [e He]; discriminate.
  - destruct (run_in_parallel_raises svc cs t Hperm Hexc) as [e1 H1].
    destruct (fetch_sequentially_raises cs Hexc t0) as [e2 H2].
    rewrite H1, H2. split; [| split].
    + intros values. split; discriminate.
    + intros values. discriminate.
    + split; intros _; eauto.
Qed.

End Refinement.

Lemma page_offsets_lookup (P : Z) (count i : nat) (off : Z) :
  page_offsets P count !! i = Some off -> off = Z.of_nat i * P /\ (i < count)%nat.
Proof.
  unfold page_offsets. rewrite list_lookup_fmap.
  destruct (seq 0 count !! i) as [k|] eqn:Hk; [| discriminate].
  apply lookup_seq in Hk. simpl. intros [= <-].
  destruct Hk as [-> Hlt]. split; [reflexivity | exact Hlt].
Qed.

Section Ordering.

Context (pd : Pandas) (svc : Service).

(** C5. Whatever the order in which the concurrently issued page
    requests are answered, the retrieval returns a result set exactly
    when fetching the pages one after the other, in ascending offset
    order, and concatenating them returns it; the offsets ascend and
    the page at each position is the answer to the request for the
    offset at that position. *)
Theorem concurrent_pages_in_offset_order (fuel n : nat)
    (project_id : option string) (qs : QuerySubmission + string)
    (uri pat : option string) (job : Job) (R : Z) (t t0 : trace) :
  settles svc (job_url project_id (submission_id qs))
    (polls (job_url project_id (submission_id qs)) t) n job ->
  (n <= fuel)%nat ->
  succeeded job = true ->
  row_count job = Some R ->
  0 < R ->
  let P := Z.min 500 R in
  let count := Z.to_nat (ceil_div R P) in
  let offsets := page_offsets P count in
  let run := get_results pd svc fuel project_id qs false uri pat t in
  let naive :=
    fetch_sequentially
      (map (fun off =>
              _fetch_results svc uri pat project_id (submission_id qs) off P)
           offsets) t0 in
  completion_order svc count ≡ₚ seq 0 count ->
  (forall i j off_i off_j,
      (i < j)%nat -> offsets !! i = Some off_i -> offsets !! j = Some off_j ->
      off_i < off_j)
  /\ (forall pages, run.1 = Done (Wrapper pages) <-> naive.1 = Done pages)
  /\ (forall pages,
        run.1 = Done (Wrapper pages) ->
        Forall2 (fun off page =>
                   get_page svc (results_url project_id (submission_id qs))
                     {| offset := Some off; limit := Some P |} = Ret page)
                offsets pages).
Proof.
  intros Hs Hfuel Hsucc Hrow HR P count offsets run naive Hperm.
  assert (0 < P) as HP by (unfold P; lia).
  set (cs := map (fun off =>
                    _fetch_results svc uri pat project_id (submission_id qs) off P)
                 offsets) in *.
  assert (length cs = count) as Hlen.
  { unfold cs, offsets, page_offsets. now rewrite !length_map, length_seq. }
  set (t1 := t ++ HttpGet (job_url project_id (submission_id qs)) None
               :: poll_trace (job_url project_id (submission_id qs)) n).
  assert (run.1 =
          match (run_in_parallel svc cs t1).1 with
          | Done results => Done (Wrapper results)
          | Raised e => Raised e
          | Pending => Pending
          end) as Hrun.
  { unfold run.
    rewrite (get_results_pages pd svc fuel n _ _ false uri pat job R t
               Hs Hfuel Hsucc Hrow HR).
    fold P count offsets cs t1. rewrite bind_unfold.
    destruct (run_in_parallel svc cs t1) as [[results|e|] t']; simpl;
      try reflexivity.
    unfold chain. simpl. now rewrite app_nil_r. }
  rewrite <- Hlen in Hperm.
  destruct (fan_out_refines svc cs t1 t0 Hperm) as (Hiff & Hval & _).
  split; [| split].
  - intros i j off_i off_j Hij Hi Hj.
    apply page_offsets_lookup in Hi as [-> _].
    apply page_offsets_lookup in Hj as [-> _]. nia.
  - intros pages. unfold naive. rewrite Hrun. split.
    + intros H. apply Hiff.
      destruct (run_in_parallel svc cs t1).1 as [results|e|];
        try discriminate; congruence.
    + intros H. apply Hiff in H. now rewrite H.
  - intros pages Hdone. rewrite Hrun in Hdone.
    destruct (run_in_parallel svc cs t1).1 as [results|e|] eqn:Hpar;
      try discriminate.
    injection Hdone as ->.
    specialize (Hval pages eq_refl). unfold cs in Hval.
    apply Forall2_fmap_l in Hval. exact Hval.
Qed.

End Ordering.

(** ** The connection URI *)

Ltac prefix_step H s :=
  let a := fresh "a" in
  destruct s as [|a s]; [discriminate H |];
  cbn [startswith] in H;
  match type of H with
  | context [Ascii.eqb ?x a] =>
      destruct (Ascii.eqb_spec x a); [subst a | discriminate H]
  end.

Lemma startswith_api (s : string) :
  startswith "api." s = true <-> exists rest, s = "api." +:+ rest.
Proof.
  split.
  - intros H. do 4 prefix_step H s. now exists s.
  - intros [rest ->]. reflexivity.
Qed.

(** C8. For every URI, the converted URI has the scheme [grpc+tls]; its
    network location is that of the input with the leading [api.]
    replaced by [data.] when the data-plane flag is set and the location
    begins with [api.], and is the location of the input, unchanged, in
    every other case; path, parameters, query and fragment are those of
    the input. *)
Theorem convert_to_adbc_uri_components (lib : Urllib) (uri : string) (is_dc : bool) :
  let u := urlparse lib uri in
  let r := convert_to_adbc_uri lib uri is_dc in
  scheme r = "grpc+tls"
  /\ (forall rest, is_dc = true -> netloc u = "api." +:+ rest ->
      netloc r = "data." +:+ rest)
  /\ (netloc r <> netloc u <-> is_dc = true /\ startswith "api." (netloc u) = true)
  /\ path r = path u
  /\ params r = params u
  /\ query r = query u
  /\ fragment r = fragment u.
Proof.
  intros u r. unfold r, convert_to_adbc_uri. fold u.
  split; [reflexivity |]. split; [| split].
  - intros rest -> Hn. rewrite Hn. reflexivity.
  - destruct is_dc; cbn [andb].
    + destruct (startswith "api." (netloc u)) eqn:Hp; cbn [netloc].
      * apply startswith_api in Hp as [rest Hrest]. rewrite Hrest.
        split; [auto |]. intros _. discriminate.
      * split; [| intros [_ ?]; discriminate].
        intros H. exfalso. now apply H.
    + cbn [netloc]. split; [| intros [? _]; discriminate].
      intros H. exfalso. now apply H.
  - destruct (is_dc && startswith "api." (netloc u)); repeat split; reflexivity.
Qed.

(** ** Cursor output as a result set *)

Lemma convert_row_from_entries (rs : list ResultSchema) (row : list pyval) :
  forall (ix : nat) (acc : gmap string pyval),
    (ix + length row <= length rs)%nat ->
    exists dict : gmap string pyval,
      convert_row_from rs ix row acc = Ret dict
      /\ (forall j col s,
            row !! j = Some col ->
            rs !! (ix + j)%nat = Some s ->
            (forall j' s', (j < j' < length row)%nat ->
                           rs !! (ix + j')%nat = Some s' ->
                           rs_name s' <> rs_name s) ->
            dict !! rs_name s = Some col)
      /\ (forall name,
            (forall j s, (j < length row)%nat -> rs !! (ix + j)%nat = Some s ->
                         rs_name s <> name) ->
            dict !! name = acc !! name).
Proof.
  induction row as [|col0 row IH]; intros ix acc Hlen; simpl in *.
  - exists acc. split; [reflexivity |]. split; [| reflexivity].
    intros j col s Hj. discriminate.
  - destruct (rs !! ix) as [s0|] eqn:Hs0;
      [| apply lookup_ge_None in Hs0; lia].
    destruct (IH (S ix) (<[rs_name s0 := col0]> acc)) as (dict & Hd & Hpos & Hneg);
      [lia |].
    exists dict. split; [exact Hd |]. split.
    + intros [|j] col s Hj Hs Hlater.
      * simpl in Hj. injection Hj as <-.
        rewrite Nat.add_0_r, Hs0 in Hs. injection Hs as <-.
        rewrite Hneg.
        -- apply lookup_insert_eq.
        -- intros j s Hlt Hsj. apply (Hlater (S j) s); [lia |].
           now rewrite Nat.add_succ_r.
      * simpl in Hj. apply (Hpos j col s Hj).
        -- now rewrite Nat.add_succ_r in Hs.
        -- intros j' s' Hlt Hs'. apply (Hlater (S j') s'); [lia |].
           now rewrite Nat.add_succ_r.
    + intros name Hname. rewrite Hneg.
      * apply lookup_insert_ne. apply (Hname O s0); [lia |].
        now rewrite Nat.add_0_r.
      * intros j s Hlt Hs. apply (Hname (S j) s); [lia |].
        now rewrite Nat.add_succ_r.
Qed.

Lemma comprehension_Forall2 {A B : Type} (f : A -> result B) (Q : A -> B -> Prop)
    (l : list A) :
  Forall (fun a => exists b, f a = Ret b /\ Q a b) l ->
  exists bs, comprehension f l = Ret bs /\ Forall2 Q l bs.
Proof.
  induction 1 as [|a l (b & Hf & Hq) _ (bs & Hc & Hbs)]; simpl.
  - exists []. split; [reflexivity | constructor].
  - rewrite Hf, Hc. exists (b :: bs). split; [reflexivity |]. now constructor.
Qed.

(** [convert_to_job_results] on the output of a cursor whose rows are no
    wider than its description. *)
Lemma convert_to_job_results_page (description : list descriptor)
    (fetched : list (list pyval)) :
  Forall (fun row => (length row <= length description)%nat) fetched ->
  exists dicts : list (gmap string pyval),
    convert_to_job_results description fetched =
    Ret [ {| jr_row_count := Z.of_nat (length fetched);
             result_schema := Some (schema_of description);
             rows := dicts |} ]
    /\ Forall2
         (fun row dict =>
            forall ix col info,
              row !! ix = Some col ->
              description !! ix = Some info ->
              (forall ix' info', (ix < ix' < length row)%nat ->
                                 description !! ix' = Some info' ->
                                 info0 info' <> info0 info) ->
              dict !! info0 info = Some col)
         fetched dicts.
Proof.
  intros Hwide. unfold convert_to_job_results. fold (schema_of description).
  destruct (comprehension_Forall2 (convert_row (schema_of description))
              (fun row dict =>
                 forall ix col info,
                   row !! ix = Some col ->
                   description !! ix = Some info ->
                   (forall ix' info', (ix < ix' < length row)%nat ->
                                      description !! ix' = Some info' ->
                                      info0 info' <> info0 info) ->
                   dict !! info0 info = Some col)
              fetched) as (dicts & Hc & Hall).
  - eapply Forall_impl; [exact Hwide |]. simpl. intros row Hrow.
    destruct (convert_row_from_entries (schema_of description) row O ∅)
      as (dict & Hd & Hpos & _).
    { unfold schema_of. rewrite length_map. simpl. exact Hrow. }
    exists dict. split; [exact Hd |].
    intros ix col info Hix Hinfo Hlater.
    apply (Hpos ix col {| rs_name := info0 info;
                          rs_type := {| rst_name := str (info1 info) |} |} Hix).
    + simpl. unfold schema_of. now rewrite list_lookup_fmap, Hinfo.
    + simpl. intros ix' s' Hlt Hs'. unfold schema_of in Hs'.
      rewrite list_lookup_fmap in Hs'.
      destruct (description !! ix') as [info'|] eqn:Hinfo'; [| discriminate].
      injection Hs' as <-. simpl. now apply (Hlater ix' info').
  - rewrite Hc. exists dicts. split; [reflexivity | exact Hall].
Qed.

(** ** Scoped connection and cursor *)

Section Scopes.

Context (pd : Pandas) (lib : Urllib) (drv : Driver pd) (cfg : Settings).

Lemma adbc_connect_refused {A : Type} (uri : string)
    (db_args conn_args : gmap string string) (body : Connection -> M A)
    (e : exn) (t : trace) :
  dbapi_connect drv uri db_args conn_args = Exc e ->
  adbc_connect pd drv uri db_args conn_args body t =
  (Raised e, t ++ [DbConnect uri db_args conn_args]).
Proof. intros H. unfold adbc_connect, call. rewrite H. reflexivity. Qed.

Lemma adbc_connect_scope {A : Type} (uri : string)
    (db_args conn_args : gmap string string) (body : Connection -> M A)
    (conn : Connection) (o : outcome A) (t t' : trace) :
  dbapi_connect drv uri db_args conn_args = Ret conn ->
  body conn (t ++ [DbConnect uri db_args conn_args]) = (o, t') ->
  o <> Pending ->
  adbc_connect pd drv uri db_args conn_args body t =
  (match conn_close drv conn with
   | Ret _ => o
   | Exc e => Raised e
   end, t' ++ [CloseConnection conn]).
Proof.
  intros Hc Hb Ho. unfold adbc_connect, call. rewrite Hc.
  unfold try_finally. rewrite Hb.
  destruct o as [a|e|]; [| | congruence];
    destruct (conn_close drv conn); reflexivity.
Qed.

Lemma adbc_cursor_refused {A : Type} (conn : Connection)
    (body : Cursor -> M A) (e : exn) (t : trace) :
  conn_cursor drv conn = Exc e ->
  adbc_cursor pd drv conn body t = (Raised e, t ++ [OpenCursor conn]).
Proof. intros H. unfold adbc_cursor, call. rewrite H. reflexivity. Qed.

Lemma adbc_cursor_scope {A : Type} (conn : Connection) (body : Cursor -> M A)
    (cursor : Cursor) (o : outcome A) (t t' : trace) :
  conn_cursor drv conn = Ret cursor ->
  body cursor (t ++ [OpenCursor conn]) = (o, t') ->
  o <> Pending ->
  adbc_cursor pd drv conn body t =
  (match cursor_close drv cursor with
   | Ret _ => o
   | Exc e => Raised e
   end, t' ++ [CloseCursor cursor]).
Proof.
  intros Hc Hb Ho. unfold adbc_cursor, call. rewrite Hc.
  unfold try_finally. rewrite Hb.
  destruct o as [a|e|]; [| | congruence];
    destruct (cursor_close drv cursor); reflexivity.
Qed.

(** The direct path in terms of its two scopes. *)
Lemma run_adbc_query_unfold (query : query_arg) (use_df : bool) :
  run_adbc_query pd lib drv cfg query use_df =
  adbc_connect pd drv
    (geturl lib (convert_to_adbc_uri lib (dremio_uri cfg) (dremio_is_cloud cfg)))
    (create_adbc_connection_options pd drv (dremio_pat cfg) (dremio_project_id cfg)).1
    (create_adbc_connection_options pd drv (dremio_pat cfg) (dremio_project_id cfg)).2
    (fun conn =>
       adbc_cursor pd drv conn (fun cursor =>
         call (Execute cursor (sql (query_of query)))
              (cursor_execute drv cursor (sql (query_of query)));;
         if use_df then
           df ← call (FetchDf cursor) (cursor_fetch_df drv cursor);
           ret (Frame df)
         else
           rows ← call (Fetchall cursor) (cursor_fetchall drv cursor);
           jr ← lift (convert_to_job_results (cursor_description drv cursor) rows);
           ret (Wrapper jr))).
Proof. destruct query; reflexivity. Qed.

(** The statements inside the two scopes, when the statement fails. *)
Lemma execute_fails (cursor : Cursor) (statement : string) (use_df : bool)
    (e : exn) (t : trace) :
  cursor_execute drv cursor statement = Exc e ->
  (call (Execute cursor statement) (cursor_execute drv cursor statement);;
   if use_df then
     df ← call (FetchDf cursor) (cursor_fetch_df drv cursor);
     ret (Frame df)
   else
     rows ← call (Fetchall cursor) (cursor_fetchall drv cursor);
     jr ← lift (convert_to_job_results (cursor_description drv cursor) rows);
     ret (Wrapper jr)) t =
  (Raised e, t ++ [Execute cursor statement]).
Proof. intros H. rewrite bind_unfold. unfold call. rewrite H. reflexivity. Qed.

(** The statements inside the two scopes, when the statement runs and
    its rows are fetched. *)
Lemma execute_fetchall (cursor : Cursor) (statement : string)
    (fetched : list (list pyval)) (t : trace) :
  cursor_execute drv cursor statement = Ret tt ->
  cursor_fetchall drv cursor = Ret fetched ->
  (call (Execute cursor statement) (cursor_execute drv cursor statement);;
   rows ← call (Fetchall cursor) (cursor_fetchall drv cursor);
   jr ← lift (convert_to_job_results (cursor_description drv cursor) rows);
   ret (Wrapper (pd := pd) jr)) t =
  (match convert_to_job_results (cursor_description drv cursor) fetched with
   | Ret jr => Done (Wrapper jr)
   | Exc e => Raised e
   end, (t ++ [Execute cursor statement]) ++ [Fetchall cursor]).
Proof.
  intros He Hf. rewrite bind_unfold. unfold call at 1. rewrite He.
  rewrite bind_unfold. unfold call at 1. rewrite Hf.
  rewrite bind_unfold.
  destruct (convert_to_job_results (cursor_description drv cursor) fetched);
    reflexivity.
Qed.

(** C7. The connection scope: a refused connection raises as it is and
    closes nothing; an acquired connection is closed, as the last step,
    whether the body of the scope returns or raises, and the outcome of
    the body is that of the scope when the close returns.  The cursor
    scope likewise.  On the direct path, a failure to open the cursor
    closes the connection only, a failure of the statement closes the
    cursor and then the connection, and both reach the caller as they
    are when the closes return. *)
Theorem scoped_release {A : Type} (uri : string)
    (db_args conn_args : gmap string string)
    (body : Connection -> M A) (owner : Connection) (inner : Cursor -> M A)
    (query : query_arg) (use_df : bool) (t : trace) :
  (forall e,
      dbapi_connect drv uri db_args conn_args = Exc e ->
      adbc_connect pd drv uri db_args conn_args body t =
      (Raised e, t ++ [DbConnect uri db_args conn_args]))
  /\ (forall conn o t',
        dbapi_connect drv uri db_args conn_args = Ret conn ->
        body conn (t ++ [DbConnect uri db_args conn_args]) = (o, t') ->
        o <> Pending ->
        (adbc_connect pd drv uri db_args conn_args body t).2
        = t' ++ [CloseConnection conn]
        /\ (conn_close drv conn = Ret tt ->
            (adbc_connect pd drv uri db_args conn_args body t).1 = o))
  /\ (forall e,
        conn_cursor drv owner = Exc e ->
        adbc_cursor pd drv owner inner t = (Raised e, t ++ [OpenCursor owner]))
  /\ (forall cursor o t',
        conn_cursor drv owner = Ret cursor ->
        inner cursor (t ++ [OpenCursor owner]) = (o, t') ->
        o <> Pending ->
        (adbc_cursor pd drv owner inner t).2 = t' ++ [CloseCursor cursor]
        /\ (cursor_close drv cursor = Ret tt ->
            (adbc_cursor pd drv owner inner t).1 = o))
  /\ (forall e,
        connect_answer pd lib drv cfg = Exc e ->
        run_adbc_query pd lib drv cfg query use_df t =
        (Raised e, t ++ [connect_event pd lib drv cfg]))
  /\ (forall conn e,
        connect_answer pd lib drv cfg = Ret conn ->
        conn_cursor drv conn = Exc e ->
        (run_adbc_query pd lib drv cfg query use_df t).2 =
        t ++ [connect_event pd lib drv cfg; OpenCursor conn; CloseConnection conn]
        /\ (conn_close drv conn = Ret tt ->
            (run_adbc_query pd lib drv cfg query use_df t).1 = Raised e))
  /\ (forall conn cursor e,
        connect_answer pd lib drv cfg = Ret conn ->
        conn_cursor drv conn = Ret cursor ->
        cursor_execute drv cursor (sql (query_of query)) = Exc e ->
        (run_adbc_query pd lib drv cfg query use_df t).2 =
        t ++ [connect_event pd lib drv cfg; OpenCursor conn;
              Execute cursor (sql (query_of query));
              CloseCursor cursor; CloseConnection conn]
        /\ (cursor_close drv cursor = Ret tt ->
            conn_close drv conn = Ret tt ->
            (run_adbc_query pd lib drv cfg query use_df t).1 = Raised e)).
Proof.
  repeat apply conj.
  - intros e H. now apply adbc_connect_refused.
  - intros conn o t' Hc Hb Ho.
    rewrite (adbc_connect_scope _ _ _ _ conn o t t' Hc Hb Ho). simpl.
    split; [reflexivity |]. now intros ->.
  - intros e H. now apply adbc_cursor_refused.
  - intros cursor o t' Hc Hb Ho.
    rewrite (adbc_cursor_scope _ _ cursor o t t' Hc Hb Ho). simpl.
    split; [reflexivity |]. now intros ->.
  - intros e H. rewrite run_adbc_query_unfold.
    now apply adbc_connect_refused.
  - intros conn e Hc Hk. rewrite run_adbc_query_unfold.
    rewrite (adbc_connect_scope _ _ _ _ conn (Raised e) t
               ((t ++ [connect_event pd lib drv cfg]) ++ [OpenCursor conn]) Hc);
      [| now apply adbc_cursor_refused | discriminate].
    simpl. rewrite <- !app_assoc. split; [reflexivity |]. now intros ->.
  - intros conn cursor e Hc Hk He. rewrite run_adbc_query_unfold.
    rewrite (adbc_connect_scope _ _ _ _ conn
               (match cursor_close drv cursor with
                | Ret _ => Raised e
                | Exc x => Raised x
                end) t
               ((((t ++ [connect_event pd lib drv cfg]) ++ [OpenCursor conn])
                   ++ [Execute cursor (sql (query_of query))])
                  ++ [CloseCursor cursor]) Hc).
    + simpl. rewrite <- !app_assoc. split; [reflexivity |].
      now intros -> ->.
    + apply (adbc_cursor_scope _ _ cursor (Raised e)); [exact Hk | | discriminate].
      now apply execute_fails.
    + destruct (cursor_close drv cursor); discriminate.
Qed.

End Scopes.

(** ** Traces only grow *)

(** A computation extends the trace it starts from. *)
Lemma extends_bind {A B : Type} (c : M A) (k : A -> M B) (step : trace -> trace)
    (t : trace) :
  (forall t0, (c t0).2 = step t0) ->
  (forall a t0, exists rest, (k a t0).2 = t0 ++ rest) ->
  exists rest, ((c ≫= k) t).2 = step t ++ rest.
Proof.
  intros Hc Hk. rewrite bind_unfold. specialize (Hc t).
  destruct (c t) as [[a|e|] t']; simpl in Hc; subst t'.
  - apply Hk.
  - exists []. simpl. now rewrite app_nil_r.
  - exists []. simpl. now rewrite app_nil_r.
Qed.

Lemma extends_seq {A B : Type} (c : M A) (k : A -> M B) (t : trace) :
  (forall t0, exists rest, (c t0).2 = t0 ++ rest) ->
  (forall a t0, exists rest, (k a t0).2 = t0 ++ rest) ->
  exists rest, ((c ≫= k) t).2 = t ++ rest.
Proof.
  intros Hc Hk. rewrite bind_unfold. destruct (Hc t) as [r1 Hr1].
  destruct (c t) as [[a|e|] t']; simpl in Hr1; subst t'.
  - destruct (Hk a (t ++ r1)) as [r2 Hr2]. exists (r1 ++ r2).
    now rewrite Hr2, app_assoc.
  - now exists r1.
  - now exists r1.
Qed.

Section Growth.

Context (pd : Pandas) (svc : Service).

Lemma extends_client_get_job (url : string) (t : trace) :
  exists rest, (client_get_job svc url t).2 = t ++ rest.
Proof. rewrite client_get_job_unfold. now eexists. Qed.

Lemma extends_poll (fuel : nat) (url : string) :
  forall (job : Job) (t : trace),
    exists rest, (poll svc fuel url job t).2 = t ++ rest.
Proof.
  induction fuel as [|fuel IH]; intros job t; simpl.
  - destruct (done job); exists []; simpl; now rewrite app_nil_r.
  - destruct (done job); [exists []; simpl; now rewrite app_nil_r |].
    apply extends_seq.
    + intros t0. now exists [Sleep].
    + intros _ t0. apply extends_seq.
      * apply extends_client_get_job.
      * apply IH.
Qed.

Lemma extends_assemble (job : Job) (project_id : option string)
    (qs : QuerySubmission) (use_df : bool) (uri pat : option string) (t : trace) :
  exists rest, (assemble pd svc job project_id qs use_df uri pat t).2 = t ++ rest.
Proof.
  unfold assemble.
  destruct (negb (succeeded job)); [exists []; simpl; now rewrite app_nil_r |].
  destruct (bool_decide (row_count job = Some 0));
    [exists []; simpl; now rewrite app_nil_r |].
  apply extends_seq.
  { intros t0. destruct (Py.min 500 (row_count job)); exists [];
      simpl; now rewrite app_nil_r. }
  intros limit t0. apply extends_seq.
  { intros t1. destruct (int_arg (row_count job)); exists [];
      simpl; now rewrite app_nil_r. }
  intros stop t1. apply extends_seq.
  { intros t2. destruct (Py.range 0 stop limit); exists [];
      simpl; now rewrite app_nil_r. }
  intros offsets t2.
  eexists. apply fan_out_trace.
  intros r t'. destruct use_df; [apply to_frame_trace | reflexivity].
Qed.

Lemma extends_get_results (fuel : nat) (project_id : option string)
    (qs : QuerySubmission + string) (use_df : bool) (uri pat : option string)
    (t : trace) :
  exists rest, (get_results pd svc fuel project_id qs use_df uri pat t).2 = t ++ rest.
Proof.
  unfold get_results. apply extends_seq.
  - apply extends_client_get_job.
  - intros job t0. apply extends_seq.
    + intros t1. apply extends_poll.
    + intros job' t1. apply extends_assemble.
Qed.

End Growth.

(** ** The direct path and the entry point *)

Section DirectPath.

Context (pd : Pandas) (lib : Urllib) (drv : Driver pd) (cfg : Settings).

(** C6. When the connection, the cursor, the statement, the fetch and
    the two closes all succeed, and every fetched row has one value per
    descriptor, the direct path returns a result set of exactly one
    page: its row count is the number of fetched rows; its schema lists
    name and rendered declared type of each descriptor, in descriptor
    order; it has one row per fetched row, in order, and each row maps
    the name of a column to the value at the position of that column
    (the last such position, should a name occur twice).  The value is
    a [JobResultsWrapper], as on the polling path. *)
Theorem direct_path_result_set (query : query_arg) (t : trace)
    (conn : Connection) (cursor : Cursor) (fetched : list (list pyval)) :
  connect_answer pd lib drv cfg = Ret conn ->
  conn_cursor drv conn = Ret cursor ->
  cursor_execute drv cursor (sql (query_of query)) = Ret tt ->
  cursor_fetchall drv cursor = Ret fetched ->
  cursor_close drv cursor = Ret tt ->
  conn_close drv conn = Ret tt ->
  Forall (fun row => length row = length (cursor_description drv cursor)) fetched ->
  exists page : JobResults,
    run_adbc_query pd lib drv cfg query false t =
    (Done (Wrapper [page]),
     t ++ [connect_event pd lib drv cfg; OpenCursor conn;
           Execute cursor (sql (query_of query)); Fetchall cursor;
           CloseCursor cursor; CloseConnection conn])
    /\ jr_row_count page = Z.of_nat (length fetched)
    /\ result_schema page = Some (schema_of (cursor_description drv cursor))
    /\ (forall ix info,
          cursor_description drv cursor !! ix = Some info ->
          schema_of (cursor_description drv cursor) !! ix =
          Some {| rs_name := info0 info;
                  rs_type := {| rst_name := str (info1 info) |} |})
    /\ length (rows page) = length fetched
    /\ (forall k row dict,
          fetched !! k = Some row ->
          rows page !! k = Some dict ->
          forall ix col info,
            row !! ix = Some col ->
            cursor_description drv cursor !! ix = Some info ->
            (forall ix' info', (ix < ix' < length row)%nat ->
                               cursor_description drv cursor !! ix' = Some info' ->
                               info0 info' <> info0 info) ->
            dict !! info0 info = Some col).
Proof.
  intros Hc Hk He Hf Hcc Hkc Hwide.
  destruct (convert_to_job_results_page (cursor_description drv cursor) fetched)
    as (dicts & Hconv & Hrows).
  { eapply Forall_impl; [exact Hwide |]. simpl. intros row ->. lia. }
  eexists. split; [| split; [| split; [| split; [| split]]]].
  - rewrite run_adbc_query_unfold.
    rewrite (adbc_connect_scope pd drv _ _ _ _ conn
               (Done (Wrapper [ {| jr_row_count := Z.of_nat (length fetched);
                                   result_schema :=
                                     Some (schema_of (cursor_description drv cursor));
                                   rows := dicts |} ])) t
               ((((t ++ [connect_event pd lib drv cfg]) ++ [OpenCursor conn])
                   ++ [Execute cursor (sql (query_of query))] ++ [Fetchall cursor])
                  ++ [CloseCursor cursor]) Hc).
    + rewrite Hkc, <- !app_assoc. reflexivity.
    + rewrite (adbc_cursor_scope pd drv conn _ cursor
                 (Done (Wrapper [ {| jr_row_count := Z.of_nat (length fetched);
                                     result_schema :=
                                       Some (schema_of (cursor_description drv cursor));
                                     rows := dicts |} ]))
                 (t ++ [connect_event pd lib drv cfg])
                 (((t ++ [connect_event pd lib drv cfg]) ++ [OpenCursor conn])
                    ++ [Execute cursor (sql (query_of query))] ++ [Fetchall cursor])
                 Hk).
      * now rewrite Hcc.
      * cbv iota. rewrite (execute_fetchall pd drv cursor _ fetched _ He Hf), Hconv.
        now rewrite <- !app_assoc.
      * discriminate.
    + discriminate.
  - reflexivity.
  - reflexivity.
  - intros ix info Hinfo. unfold schema_of.
    now rewrite list_lookup_fmap, Hinfo.
  - simpl. symmetry. exact (Forall2_length _ _ _ Hrows).
  - simpl. intros k row dict Hrow Hdict.
    exact (Forall2_lookup_lr _ _ _ _ _ _ Hrows Hrow Hdict).
Qed.

Context (svc : Service).

(** C9. For every SQL string and every combination of the two flags,
    [run_query] on the bare string is [run_query] on the [Query] that
    holds the string and neither context nor references, and the same
    holds of [run_adbc_query]; on the polling path the first request is
    the submission of that [Query]. *)
Theorem run_query_wraps_string (fuel : nat) (s : string) (use_df use_adbc : bool) :
  run_query pd lib drv cfg svc fuel (QStr s) use_df use_adbc =
  run_query pd lib drv cfg svc fuel
    (QObj {| sql := s; context := None; references := None |}) use_df use_adbc
  /\ run_adbc_query pd lib drv cfg (QStr s) use_df =
     run_adbc_query pd lib drv cfg
       (QObj {| sql := s; context := None; references := None |}) use_df
  /\ forall t : trace,
       exists rest : trace,
         (run_query pd lib drv cfg svc fuel (QStr s) use_df false t).2 =
         t ++ HttpPost (endpoint_of (dremio_project_id cfg) +:+ "/sql")
                {| sql := s; context := None; references := None |} :: rest.
Proof.
  split; [reflexivity |]. split; [reflexivity |].
  intros t. unfold run_query.
  destruct (extends_bind
              (call (HttpPost (endpoint_of (dremio_project_id cfg) +:+ "/sql")
                       {| sql := s; context := None; references := None |})
                    (post_sql svc (endpoint_of (dremio_project_id cfg) +:+ "/sql")
                       {| sql := s; context := None; references := None |}))
              (fun qs => get_results pd svc fuel (dremio_project_id cfg) (inl qs)
                           use_df None None)
              (fun t0 => t0 ++ [HttpPost (endpoint_of (dremio_project_id cfg) +:+ "/sql")
                                  {| sql := s; context := None; references := None |}])
              t) as [rest Hrest].
  - intros t0. reflexivity.
  - intros qs. apply extends_get_results.
  - exists rest. rewrite Hrest, <- app_assoc. reflexivity.
Qed.

End DirectPath.

(** ** The properties on the sample worlds *)

(** C2. A CANCELED job with neither an error message nor a cancellation
    reason: the retrieval raises with the text of [None] in the place of
    the message, not with the fallback "Unknown error"; a FAILED job
    whose error message is "syntax error" raises with that message, and a
    FAILED job without a message raises with the fallback. *)
Theorem canceled_without_reason_message :
  (get_results Sample.pd
     (Sample.svc (Sample.snapshot "CANCELED" Absent Absent Absent) 0)
     3 None (inr "j1") false None None []).1
  = Raised (RuntimeError "Job j1 failed: None")
  /\ emsg (Sample.job CANCELED (Some 0) None None) = None
  /\ emsg (Sample.job CANCELED (Some 0) None None) <> Some "Unknown error"
  /\ (get_results Sample.pd
        (Sample.svc (Sample.snapshot "FAILED" Absent (Present "syntax error") Absent) 0)
        3 None (inr "j1") false None None []).1
     = Raised (RuntimeError "Job j1 failed: syntax error")
  /\ (get_results Sample.pd
        (Sample.svc (Sample.snapshot "FAILED" Absent Absent Absent) 0)
        3 None (inr "j1") false None None []).1
     = Raised (RuntimeError "Job j1 failed: Unknown error").
Proof.
  split; [vm_compute; reflexivity |].
  split; [reflexivity |].
  split; [discriminate |].
  split; vm_compute; reflexivity.
Qed.

Lemma sample_settles (final : JobSnapshot) (R : Z) (job : Job) :
  Job_validate final = Ret job ->
  done job = true ->
  settles (Sample.svc final R) (job_url None "j1")
    (polls (job_url None "j1") []) 1 job.
Proof.
  intros Hv Hd. apply settles_later with (job0 := Sample.running).
  - reflexivity.
  - reflexivity.
  - apply settles_now; [| exact Hd]. unfold job_at. simpl. exact Hv.
Defined.

(** A job of 1200 rows: three requests, at the offsets 0, 500 and 1000,
    each for 500 rows, and 1200 rows in the result. *)
Lemma paginated_fetch_witness :
  let run :=
    get_results Sample.pd
      (Sample.svc (Sample.snapshot "COMPLETED" (Present 1200) Absent Absent) 1200)
      3 None (inr "j1") false None None [] in
  page_requests run.2 = map (page_request None "j1" 500) [0; 500; 1000]
  /\ exists jr, run.1 = Done (Wrapper jr) /\ Z.of_nat (length (all_rows jr)) = 1200.
Proof.
  intros run.
  destruct (paginated_fetch Sample.pd
              (Sample.svc (Sample.snapshot "COMPLETED" (Present 1200) Absent Absent) 1200)
              3 1 None (inr "j1") false None None
              (Sample.job COMPLETED (Some 1200) None None) 1200 [])
    as (_ & (fetches & Htrace & _ & Hfetches) & Hbounds & Hrows).
  - apply sample_settles; reflexivity.
  - lia.
  - reflexivity.
  - reflexivity.
  - lia.
  - split.
    + unfold run. rewrite Htrace, Hfetches. reflexivity.
    + apply Hrows.
      * reflexivity.
      * apply reverse_Permutation.
      * intros off Hoff. eexists. split; [reflexivity |].
        rewrite Forall_forall in Hbounds. specialize (Hbounds off Hoff).
        unfold Sample.page. simpl rows. rewrite length_map, length_seq.
        simpl offset. simpl limit. simpl default.
        change (Z.min 500 1200) with 500. lia.
Defined.

(** A job without rows: the empty result set and no page request. *)
Lemma empty_result_fast_path_witness :
  let run :=
    get_results Sample.pd
      (Sample.svc (Sample.snapshot "COMPLETED" (Present 0) Absent Absent) 0)
      3 None (inr "j1") false None None [] in
  run.1 = Done (Wrapper []) /\ page_requests run.2 = [].
Proof.
  intros run.
  destruct (empty_result_fast_path Sample.pd
              (Sample.svc (Sample.snapshot "COMPLETED" (Present 0) Absent Absent) 0)
              3 1 None (inr "j1") false None None
              (Sample.job COMPLETED (Some 0) None None) [])
    as (Hout & _ & Hpages).
  - apply sample_settles; reflexivity.
  - lia.
  - reflexivity.
  - reflexivity.
  - split; [exact Hout | exact Hpages].
Defined.

(** A COMPLETED job whose snapshot has no [rowCount]. *)
Lemma absent_row_count_witness :
  row_count (Sample.job COMPLETED (Some 0) None None) = Some 0
  /\ (get_results Sample.pd
        (Sample.svc (Sample.snapshot "COMPLETED" Absent Absent Absent) 0)
        3 None (inr "j1") true None None []).1
     = Done (Frame (pd_empty Sample.pd)).
Proof.
  destruct (absent_row_count Sample.pd
              (Sample.svc (Sample.snapshot "COMPLETED" Absent Absent Absent) 0)
              (Sample.snapshot "COMPLETED" Absent Absent Absent) eq_refl)
    as [Hzero Hfast].
  split.
  - apply Hzero. reflexivity.
  - destruct (Hfast 3%nat 1%nat None (inr "j1") true None None
                (Sample.job COMPLETED (Some 0) None None) [])
      as (Hout & _ & _).
    + apply sample_settles; reflexivity.
    + reflexivity.
    + reflexivity.
    + lia.
    + exact Hout.
Defined.

(** The three pages of a job of 1200 rows, answered last request first,
    are returned as the sequential retrieval returns them. *)
Lemma concurrent_pages_in_offset_order_witness :
  let svc := Sample.svc (Sample.snapshot "COMPLETED" (Present 1200) Absent Absent) 1200 in
  exists pages,
    (get_results Sample.pd svc 3 None (inr "j1") false None None []).1
    = Done (Wrapper pages)
    /\ (fetch_sequentially
          (map (fun off => _fetch_results svc None None None "j1" off 500)
               [0; 500; 1000]) []).1
       = Done pages.
Proof.
  intros svc.
  destruct (concurrent_pages_in_offset_order Sample.pd svc 3 1 None (inr "j1")
              None None (Sample.job COMPLETED (Some 1200) None None) 1200 [] [])
    as (_ & Hiff & _).
  - apply sample_settles; reflexivity.
  - lia.
  - reflexivity.
  - reflexivity.
  - lia.
  - apply reverse_Permutation.
  - exists (map (fun off => Sample.page 1200 {| offset := Some off; limit := Some 500 |})
                [0; 500; 1000]).
    assert ((fetch_sequentially
               (map (fun off => _fetch_results svc None None None "j1" off 500)
                    [0; 500; 1000]) []).1
            = Done (map (fun off =>
                           Sample.page 1200 {| offset := Some off; limit := Some 500 |})
                        [0; 500; 1000])) as Hnaive by reflexivity.
    split; [| exact Hnaive].
    apply Hiff. exact Hnaive.
Defined.

(** Two fetched rows of two columns. *)
Lemma direct_path_result_set_witness :
  exists page,
    (run_adbc_query Sample.pd Sample.lib (Sample.drv true) Sample.cfg
       (QStr "select id, name from t") false []).1
    = Done (Wrapper [page])
    /\ jr_row_count page = 2
    /\ map rs_name (default [] (result_schema page)) = ["id"; "name"].
Proof.
  destruct (direct_path_result_set Sample.pd Sample.lib (Sample.drv true) Sample.cfg
              (QStr "select id, name from t") [] 1%nat 7%nat
              [ [VInt 1; VStr "a"]; [VInt 2; VStr "b"] ])
    as (page & Hrun & Hcount & Hschema & _).
  - reflexivity.
  - reflexivity.
  - reflexivity.
  - reflexivity.
  - reflexivity.
  - reflexivity.
  - repeat constructor.
  - exists page. rewrite Hrun, Hcount, Hschema. repeat split; reflexivity.
Defined.

(** A statement the driver rejects: the cursor and then the connection
    are closed and the failure of the statement reaches the caller. *)
Lemma scoped_release_witness :
  run_adbc_query Sample.pd Sample.lib (Sample.drv false) Sample.cfg
    (QStr "selec 1") false []
  = (Raised (DriverError "syntax error"),
     [connect_event Sample.pd Sample.lib (Sample.drv false) Sample.cfg;
      OpenCursor 1%nat; Execute 7%nat "selec 1"; CloseCursor 7%nat;
      CloseConnection 1%nat]).
Proof.
  destruct (scoped_release Sample.pd Sample.lib (Sample.drv false) Sample.cfg
              "" ∅ ∅ (fun _ => ret tt) 1%nat (fun _ => ret tt)
              (QStr "selec 1") false [])
    as (_ & _ & _ & _ & _ & _ & Hexec).
  destruct (Hexec 1%nat 7%nat (DriverError "syntax error")
              eq_refl eq_refl eq_refl) as [Htrace Hout].
  specialize (Hout eq_refl eq_refl).
  destruct (run_adbc_query Sample.pd Sample.lib (Sample.drv false) Sample.cfg
              (QStr "selec 1") false []) as [o t'].
  simpl in Htrace, Hout. now subst.
Defined.

(** ** Further properties of the polling path *)

Lemma polls_page_requests (url : string) (t : trace) :
  Forall (fun e => is_page_request e = true) t -> polls url t = O.
Proof.
  induction 1 as [|e t He _ IH]; [reflexivity |].
  destruct e as [| u [p|] | | | | | | | |]; try discriminate. exact IH.
Qed.

Lemma sleeps_app (t1 t2 : trace) : sleeps (t1 ++ t2) = (sleeps t1 + sleeps t2)%nat.
Proof.
  induction t1 as [|e t1 IH]; [reflexivity |].
  destruct e; simpl; congruence.
Qed.

Lemma sleeps_page_requests (t : trace) :
  Forall (fun e => is_page_request e = true) t -> sleeps t = O.
Proof.
  induction 1 as [|e t He _ IH]; [reflexivity |].
  destruct e as [| u [p|] | | | | | | | |]; try discriminate. exact IH.
Qed.

Lemma polls_poll_trace (url : string) (n : nat) : polls url (poll_trace url n) = n.
Proof. induction n; simpl; [reflexivity |]. rewrite String.eqb_refl. congruence. Qed.

Lemma sleeps_poll_trace (url : string) (n : nat) : sleeps (poll_trace url n) = n.
Proof. induction n; simpl; congruence. Qed.

Lemma page_requests_only (t : trace) :
  Forall (fun e => is_page_request e = true) t ->
  Forall (fun e => is_http e = true) t.
Proof.
  intros H. eapply Forall_impl; [exact H |].
  intros e. destruct e as [| u [p|] | | | | | | | |]; simpl; congruence.
Qed.

Section PollingMore.

Context (pd : Pandas) (svc : Service).

(** What follows the polling loop puts page requests on the trace and
    nothing else. *)
Lemma assemble_new_events (job : Job) (project_id : option string)
    (qs : QuerySubmission) (use_df : bool) (uri pat : option string) (t : trace) :
  exists rest,
    (assemble pd svc job project_id qs use_df uri pat t).2 = t ++ rest
    /\ Forall (fun e => is_page_request e = true) rest.
Proof.
  unfold assemble.
  destruct (negb (succeeded job));
    [exists []; split; [simpl; now rewrite app_nil_r | constructor] |].
  destruct (bool_decide (row_count job = Some 0));
    [exists []; split; [simpl; now rewrite app_nil_r | constructor] |].
  destruct (Py.min 500 (row_count job)) as [limit|e];
    [| exists []; split; [simpl; now rewrite app_nil_r | constructor]].
  rewrite bind_lift_ret.
  destruct (int_arg (row_count job)) as [stop|e];
    [| exists []; split; [simpl; now rewrite app_nil_r | constructor]].
  rewrite bind_lift_ret.
  destruct (Py.range 0 stop limit) as [offsets|e];
    [| exists []; split; [simpl; now rewrite app_nil_r | constructor]].
  rewrite bind_lift_ret.
  eexists. split.
  - apply fan_out_trace.
    intros r t'. destruct use_df; [apply to_frame_trace | reflexivity].
  - rewrite map_map. apply Forall_forall. intros e He.
    apply list_elem_of_fmap in He as (off & -> & _). reflexivity.
Qed.

(** However the retrieval ends, a job that settles after [n] snapshots
    that are not done costs [n + 1] status queries and [n] pauses: the
    status is never queried again once the job is done. *)
Theorem no_poll_after_done (fuel n : nat) (project_id : option string)
    (qs : QuerySubmission + string) (use_df : bool) (uri pat : option string)
    (job : Job) (t : trace) :
  settles svc (job_url project_id (submission_id qs))
    (polls (job_url project_id (submission_id qs)) t) n job ->
  (n <= fuel)%nat ->
  let run := get_results pd svc fuel project_id qs use_df uri pat t in
  polls (job_url project_id (submission_id qs)) run.2
  = (polls (job_url project_id (submission_id qs)) t + n + 1)%nat
  /\ sleeps run.2 = (sleeps t + n)%nat.
Proof.
  intros Hs Hfuel run. unfold run.
  rewrite (get_results_settles pd svc fuel n _ _ _ _ _ job t Hs Hfuel).
  destruct (assemble_new_events job project_id {| id := submission_id qs |}
              use_df uri pat
              (t ++ HttpGet (job_url project_id (submission_id qs)) None
                 :: poll_trace (job_url project_id (submission_id qs)) n))
    as (rest & -> & Hrest).
  split.
  - rewrite !polls_app. simpl. rewrite String.eqb_refl, polls_poll_trace.
    rewrite (polls_page_requests _ rest Hrest). lia.
  - rewrite !sleeps_app. simpl. rewrite sleeps_poll_trace.
    rewrite (sleeps_page_requests rest Hrest). lia.
Qed.

(** A job that settles on a state other than COMPLETED: the retrieval
    raises a [RuntimeError] that names the job and carries the resolved
    message, after the polling requests and without any page request. *)
Theorem failed_job_fetches_nothing (fuel n : nat) (project_id : option string)
    (qs : QuerySubmission + string) (use_df : bool) (uri pat : option string)
    (job : Job) (t : trace) :
  settles svc (job_url project_id (submission_id qs))
    (polls (job_url project_id (submission_id qs)) t) n job ->
  (n <= fuel)%nat ->
  job_state job <> COMPLETED ->
  let run := get_results pd svc fuel project_id qs use_df uri pat t in
  run = (Raised (RuntimeError
                   ("Job " +:+ submission_id qs +:+ " failed: " +:+ fmt (emsg job))),
         t ++ HttpGet (job_url project_id (submission_id qs)) None
           :: poll_trace (job_url project_id (submission_id qs)) n)
  /\ page_requests run.2 = page_requests t.
Proof.
  intros Hs Hfuel Hstate run. unfold run.
  rewrite (get_results_settles pd svc fuel n _ _ _ _ _ job t Hs Hfuel).
  rewrite assemble_failed.
  - split; [reflexivity |]. simpl.
    rewrite page_requests_app. simpl.
    rewrite page_requests_poll_trace. apply app_nil_r.
  - destruct (succeeded job) eqn:Hsucc; [| reflexivity].
    apply succeeded_iff in Hsucc. contradiction.
Qed.

(** A status query that raises, after [n] snapshots that are not done,
    ends the retrieval with that exception: the loop does not retry, and
    no page is requested. *)
Theorem status_failure_propagates (n : nat) (e : exn) :
  forall (p fuel : nat) (project_id : option string)
         (qs : QuerySubmission + string) (use_df : bool) (uri pat : option string)
         (t : trace),
    stalls svc (job_url project_id (submission_id qs)) p n e ->
    polls (job_url project_id (submission_id qs)) t = p ->
    (n <= fuel)%nat ->
    get_results pd svc fuel project_id qs use_df uri pat t =
    (Raised e,
     t ++ HttpGet (job_url project_id (submission_id qs)) None
       :: poll_trace (job_url project_id (submission_id qs)) n).
Proof.
  intros p fuel project_id qs use_df uri pat t Hs Hp Hfuel.
  unfold get_results.
  assert (match qs with inl q => q | inr s => {| id := s |} end
          = {| id := submission_id qs |}) as ->.
  { destruct qs as [[q]|s]; reflexivity. }
  simpl id. fold (job_url project_id (submission_id qs)).
  set (url := job_url project_id (submission_id qs)) in *.
  assert ((client_get_job svc url ≫= poll svc fuel url) t =
          (Raised e, t ++ HttpGet url None :: poll_trace url n)) as Hloop.
  { clear use_df uri pat. revert fuel t Hp Hfuel.
    induction Hs as [p e Hat | p n job0 e Hat Hnot Hs IH]; intros fuel t Hp Hfuel.
    - rewrite bind_unfold, client_get_job_unfold, Hp, Hat. reflexivity.
    - destruct fuel as [|fuel]; [lia |].
      rewrite bind_unfold, client_get_job_unfold, Hp, Hat.
      simpl poll. rewrite Hnot.
      rewrite bind_unfold. unfold call at 1.
      etransitivity;
        [apply (IH fuel ((t ++ [HttpGet url None]) ++ [Sleep]));
         [rewrite polls_poll_trace_step; congruence | lia] |].
      rewrite <- !app_assoc. reflexivity. }
  transitivity
    (((client_get_job svc url ≫= poll svc fuel url) ≫=
        (fun j => assemble pd svc j project_id {| id := submission_id qs |}
                    use_df uri pat)) t).
  - rewrite !bind_unfold.
    destruct (client_get_job svc url t) as [[j|x|] t']; reflexivity.
  - rewrite bind_unfold, Hloop. reflexivity.
Qed.

End PollingMore.

(** The message of a failure is a non-empty string for every state other
    than CANCELED (an empty error message counts as none and gives way to
    the fallback); it is missing exactly for a CANCELED job that has
    neither a non-empty error message nor a cancellation reason. *)
Theorem emsg_populated (job : Job) :
  (job_state job <> CANCELED -> exists s, emsg job = Some s /\ s <> "")
  /\ (emsg job = None <->
      job_state job = CANCELED
      /\ truthy (error_message job) = false
      /\ cancellation_reason job = None).
Proof.
  unfold emsg. destruct (truthy (error_message job)) eqn:Htruthy.
  - unfold truthy in Htruthy.
    destruct (error_message job) as [s|]; [| discriminate].
    split.
    + intros _. exists s. split; [reflexivity |].
      intros ->. discriminate.
    + split; [discriminate |]. intros (_ & ? & _). discriminate.
  - destruct (bool_decide (job_state job = CANCELED)) eqn:Hc.
    + apply bool_decide_eq_true in Hc. split; [contradiction |]. tauto.
    + apply bool_decide_eq_false in Hc. split.
      * intros _. exists "Unknown error". split; [reflexivity | discriminate].
      * split; [discriminate |]. intros (? & _). contradiction.
Qed.

(** ** Further properties of the paginated fetcher *)

(** The page size lies between 1 and 500; a result of at most 500 rows is
    one page of all its rows; and the windows [off, off + P) of the
    offsets of [range(0, R, P)] partition the rows: every row index lies
    in the window of exactly one offset, so no row is asked for twice and
    none is left out. *)
Theorem page_windows (R : Z) :
  0 < R ->
  exists (P : Z) (offsets : list Z),
    Py.min 500 (Some R) = Ret P
    /\ Py.range 0 R P = Ret offsets
    /\ 1 <= P <= 500
    /\ (R <= 500 -> P = R /\ offsets = [0])
    /\ forall r, 0 <= r < R ->
         exists off,
           off ∈ offsets /\ off <= r < off + P
           /\ forall off', off' ∈ offsets -> off' <= r < off' + P -> off' = off.
Proof.
  intros HR. exists (Z.min 500 R), (page_offsets (Z.min 500 R)
                                     (Z.to_nat (ceil_div R (Z.min 500 R)))).
  set (P := Z.min 500 R). assert (0 < P) as HP by (unfold P; lia).
  pose proof (ceil_div_spec R P HP) as Hceil.
  split; [| split; [| split; [| split]]].
  - unfold Py.min. f_equal. unfold P. destruct (Z.ltb_spec R 500); lia.
  - unfold Py.range.
    destruct (Z.eqb_spec P 0) as [|_]; [lia |].
    destruct (Z.ltb_spec 0 P) as [_|]; [| lia].
    rewrite Z.sub_0_r, range_offsets by lia. reflexivity.
  - unfold P. lia.
  - intros Hsmall. assert (P = R) as HPR by (unfold P; lia).
    split; [exact HPR |].
    assert (ceil_div R P = 1) as -> by nia. reflexivity.
  - intros r Hr.
    pose proof (Z.div_mod r P ltac:(lia)) as Hdm.
    pose proof (Z.mod_pos_bound r P HP) as Hmod.
    assert (0 <= r / P) as Hq by (apply Z.div_pos; lia).
    exists (r / P * P). split; [| split].
    + unfold page_offsets. apply list_elem_of_fmap.
      exists (Z.to_nat (r / P)). split; [lia |].
      apply elem_of_seq. nia.
    + nia.
    + intros off' Hoff' Hwin. unfold page_offsets in Hoff'.
      apply list_elem_of_fmap in Hoff' as (i & -> & _).
      assert (Z.of_nat i = r / P) as -> by nia. reflexivity.
Qed.

Section FetcherMore.

Context (pd : Pandas) (svc : Service).

(** A COMPLETED job whose snapshot has [rowCount: null]: the row count
    deserialises to [None], which is not the 0 of the fast path, and the
    retrieval raises the [TypeError] of [min(500, None)] without any page
    request. *)
Theorem null_row_count_raises (snapshot : JobSnapshot) :
  rowCount snapshot = Null ->
  (forall job : Job, Job_validate snapshot = Ret job -> row_count job = None)
  /\ (forall (fuel n : nat) (project_id : option string)
             (qs : QuerySubmission + string) (use_df : bool)
             (uri pat : option string) (job : Job) (t : trace),
        let url := job_url project_id (submission_id qs) in
        settles svc url (polls url t) n job ->
        get_job svc url (polls url t + n) = Ret snapshot ->
        jobState snapshot = Present "COMPLETED" ->
        (n <= fuel)%nat ->
        get_results pd svc fuel project_id qs use_df uri pat t =
        (Raised (TypeError
                   "'<' not supported between instances of 'NoneType' and 'int'"),
         t ++ HttpGet url None :: poll_trace url n)).
Proof.
  intros Hnull.
  assert (forall job, Job_validate snapshot = Ret job -> row_count job = None)
    as Hnone.
  { intros job Hv. rewrite (Job_validate_row_count _ _ Hv), Hnull. reflexivity. }
  split; [exact Hnone |].
  intros fuel n project_id qs use_df uri pat job t url Hs Hget Hstate Hfuel.
  pose proof (settles_last svc _ _ _ _ Hs) as Hlast.
  unfold job_at in Hlast. fold url in Hlast. rewrite Hget in Hlast.
  assert (succeeded job = true) as Hsucc.
  { apply succeeded_iff.
    pose proof (Job_validate_job_state _ _ _ Hlast Hstate) as Hst.
    assert (JobState_of_string "COMPLETED" = Some COMPLETED) as Hc
      by reflexivity.
    congruence. }
  rewrite (get_results_settles pd svc fuel n _ _ _ _ _ job t Hs Hfuel).
  fold url. unfold assemble. rewrite Hsucc, (Hnone job Hlast). reflexivity.
Qed.

(** A successful job with a negative row count [R]: the page size is [R]
    itself, [range(0, R, R)] is the single offset 0, and the retrieval
    issues exactly one page request, for offset 0 with the negative
    limit [R]. *)
Theorem negative_row_count_one_request (fuel n : nat) (project_id : option string)
    (qs : QuerySubmission + string) (use_df : bool) (uri pat : option string)
    (job : Job) (R : Z) (t : trace) :
  settles svc (job_url project_id (submission_id qs))
    (polls (job_url project_id (submission_id qs)) t) n job ->
  (n <= fuel)%nat ->
  succeeded job = true ->
  row_count job = Some R ->
  R < 0 ->
  Py.range 0 R R = Ret [0]
  /\ (get_results pd svc fuel project_id qs use_df uri pat t).2 =
     t ++ HttpGet (job_url project_id (submission_id qs)) None
       :: poll_trace (job_url project_id (submission_id qs)) n
       ++ [HttpGet (results_url project_id (submission_id qs))
             (Some {| offset := Some 0; limit := Some R |})].
Proof.
  intros Hs Hfuel Hsucc Hrow HR.
  assert (Py.range 0 R R = Ret [0]) as Hrange.
  { unfold Py.range.
    destruct (Z.eqb_spec R 0) as [|_]; [lia |].
    destruct (Z.ltb_spec 0 R) as [|_]; [lia |].
    destruct (Z.to_nat (0 - R)) as [|k] eqn:Hk; [lia |].
    simpl. destruct (Z.ltb_spec R 0) as [_|]; [| lia].
    f_equal. f_equal. destruct k; simpl; [reflexivity |].
    now rewrite Z.ltb_irrefl. }
  split; [exact Hrange |].
  rewrite (get_results_settles pd svc fuel n _ _ _ _ _ job t Hs Hfuel).
  unfold assemble. rewrite Hsucc, Hrow. cbn [negb].
  rewrite bool_decide_eq_false_2 by (intros [= ?]; lia).
  unfold Py.min, int_arg.
  destruct (Z.ltb_spec R 500) as [_|]; [| lia].
  rewrite !bind_lift_ret, Hrange, bind_lift_ret.
  rewrite fan_out_trace.
  - simpl. rewrite <- app_assoc. reflexivity.
  - intros r t'. destruct use_df; [apply to_frame_trace | reflexivity].
Qed.

End FetcherMore.

(** ** Further properties of the conversion of cursor output *)

Lemma convert_row_from_too_wide (rs : list ResultSchema) (row : list pyval) :
  forall (ix : nat) (acc : gmap string pyval),
    (ix <= length rs)%nat ->
    (length rs < ix + length row)%nat ->
    convert_row_from rs ix row acc = Exc (IndexError "list index out of range").
Proof.
  induction row as [|col row IH]; intros ix acc Hix Hwide; simpl in *; [lia |].
  destruct (rs !! ix) as [s|] eqn:Hs; [| reflexivity].
  apply IH; [| lia]. apply lookup_lt_Some in Hs. lia.
Qed.

Lemma convert_row_from_dom (rs : list ResultSchema) (row : list pyval) :
  forall (ix : nat) (acc dict : gmap string pyval),
    convert_row_from rs ix row acc = Ret dict ->
    (ix + length row <= Nat.max ix (length rs))%nat
    /\ dom dict =
       dom acc ∪ list_to_set (rs_name <$> take (length row) (drop ix rs)).
Proof.
  induction row as [|col row IH]; intros ix acc dict H; simpl in *.
  - injection H as <-. split; [lia |]. now rewrite union_empty_r_L.
  - destruct (rs !! ix) as [s|] eqn:Hs; [| discriminate].
    destruct (IH _ _ _ H) as [Hlen Hdom].
    pose proof (lookup_lt_Some _ _ _ Hs) as Hlt.
    split; [lia |].
    rewrite Hdom, dom_insert_L, (drop_S _ _ _ Hs). simpl.
    rewrite (comm_L (∪) {[rs_name s]} (dom acc)).
    symmetry. apply (assoc_L (∪)).
Qed.

Lemma comprehension_length {A B : Type} (f : A -> result B) (l : list A)
    (bs : list B) :
  comprehension f l = Ret bs -> length bs = length l.
Proof.
  revert bs. induction l as [|a l IH]; intros bs; simpl.
  - now intros [= <-].
  - destruct (f a); [| discriminate].
    destruct (comprehension f l) as [bs'|]; [| discriminate].
    intros [= <-]. simpl. f_equal. now apply IH.
Qed.

Lemma comprehension_raises {A B : Type} (f : A -> result B) (e : exn)
    (l : list A) :
  Forall (fun a => f a = Exc e \/ exists b, f a = Ret b) l ->
  Exists (fun a => f a = Exc e) l ->
  comprehension f l = Exc e.
Proof.
  induction 1 as [|a l Ha _ IH]; intros Hex; [now apply Exists_nil in Hex |].
  simpl. destruct Ha as [-> | [b Hb]]; [reflexivity |].
  rewrite Hb. apply Exists_cons in Hex as [Hex | Hex]; [congruence |].
  now rewrite (IH Hex).
Qed.

(** The keys of a converted row are the names of the columns the row has
    values for: a row shorter than the description is accepted and lacks
    the trailing columns. *)
Theorem convert_row_keys (rs : list ResultSchema) (row : list pyval)
    (dict : gmap string pyval) :
  convert_row rs row = Ret dict ->
  (length row <= length rs)%nat
  /\ dom dict = list_to_set (rs_name <$> take (length row) rs).
Proof.
  intros H. apply convert_row_from_dom in H as [Hlen Hdom].
  split; [lia |]. now rewrite Hdom, dom_empty_L, drop_0, union_empty_l_L.
Qed.

(** The conversion raises [IndexError] as soon as one fetched row has
    more values than the description has columns, whatever the other
    rows; when it returns, it returns exactly one page, also when no row
    was fetched: one page without rows, where the polling path returns no
    page at all. *)
Theorem convert_to_job_results_outcome (description : list descriptor)
    (fetched : list (list pyval)) :
  (Exists (fun row => (length description < length row)%nat) fetched ->
   convert_to_job_results description fetched =
   Exc (IndexError "list index out of range"))
  /\ (forall jr, convert_to_job_results description fetched = Ret jr ->
        exists page,
          jr = [page]
          /\ jr_row_count page = Z.of_nat (length fetched)
          /\ length (rows page) = length fetched
          /\ (length <$> result_schema page) = Some (length description))
  /\ convert_to_job_results description [] =
     Ret [ {| jr_row_count := 0;
              result_schema := Some (schema_of description);
              rows := [] |} ].
Proof.
  split; [| split; [| reflexivity]].
  - intros Hex. unfold convert_to_job_results. fold (schema_of description).
    rewrite (comprehension_raises (convert_row (schema_of description))
               (IndexError "list index out of range") fetched);
      [reflexivity | |].
    + apply Forall_forall. intros row _.
      destruct (Nat.le_gt_cases (length row) (length description)) as [Hle | Hgt].
      * right.
        destruct (convert_row_from_entries (schema_of description) row O ∅)
          as (dict & Hd & _).
        { unfold schema_of. rewrite length_map. simpl. exact Hle. }
        now exists dict.
      * left. apply convert_row_from_too_wide; [lia |].
        unfold schema_of. rewrite length_map. simpl. lia.
    + eapply Exists_impl; [exact Hex |]. simpl. intros row Hrow.
      apply convert_row_from_too_wide; [lia |].
      unfold schema_of. rewrite length_map. simpl. lia.
  - intros jr. unfold convert_to_job_results. fold (schema_of description).
    destruct (comprehension (convert_row (schema_of description)) fetched)
      as [dicts|e] eqn:Hc; [| discriminate].
    intros [= <-]. eexists. split; [reflexivity |]. simpl.
    split; [reflexivity |]. split.
    + exact (comprehension_length _ _ _ Hc).
    + unfold schema_of. now rewrite length_map.
Qed.

(** ** Further properties of the direct path *)

Lemma append_inj_l (p a b : string) : p +:+ a = p +:+ b -> a = b.
Proof. induction p as [|c p IH]; simpl; [auto |]. intros [= H]. auto. Qed.

Section DirectMore.

Context (pd : Pandas) (lib : Urllib) (drv : Driver pd) (cfg : Settings).

(** The statements inside the cursor scope: the statement is executed,
    and the fetch is asked for only when the statement ran. *)
Lemma statements_outcome (cursor : Cursor) (statement : string) (use_df : bool)
    (t : trace) :
  exists o,
    (call (Execute cursor statement) (cursor_execute drv cursor statement);;
     if use_df then
       df ← call (FetchDf cursor) (cursor_fetch_df drv cursor);
       ret (Frame df)
     else
       rows ← call (Fetchall cursor) (cursor_fetchall drv cursor);
       jr ← lift (convert_to_job_results (cursor_description drv cursor) rows);
       ret (Wrapper jr)) t =
    (o, t ++ Execute cursor statement ::
          match cursor_execute drv cursor statement with
          | Ret _ => [fetch_event use_df cursor]
          | Exc _ => []
          end)
    /\ o <> Pending
    /\ (forall e, cursor_execute drv cursor statement = Exc e -> o = Raised e)
    /\ (cursor_execute drv cursor statement = Ret tt -> use_df = true ->
        o = match cursor_fetch_df drv cursor with
            | Ret df => Done (Frame df)
            | Exc e => Raised e
            end).
Proof.
  rewrite bind_unfold. unfold call at 1.
  destruct (cursor_execute drv cursor statement) as [[]|e].
  - destruct use_df; rewrite bind_unfold; unfold call at 1.
    + destruct (cursor_fetch_df drv cursor) as [df|e]; eexists;
        (split; [rewrite <- app_assoc; reflexivity |]);
        (split; [discriminate |]); (split; [discriminate | reflexivity]).
    + destruct (cursor_fetchall drv cursor) as [rows|e].
      * rewrite bind_unfold.
        destruct (convert_to_job_results (cursor_description drv cursor) rows);
          eexists; (split; [rewrite <- app_assoc; reflexivity |]);
          (split; [discriminate |]); (split; discriminate).
      * eexists. split; [rewrite <- app_assoc; reflexivity |].
        split; [discriminate |]. split; discriminate.
  - eexists. split; [reflexivity |]. split; [discriminate |].
    split; [now intros x [= <-] | discriminate].
Qed.

(** The calls of the direct path, in every case: the connection is asked
    for; the cursor only on an open connection; the statement only on an
    open cursor; the fetch, of rows or of a table by the mode, only after
    the statement ran; then the cursor and the connection are closed, in
    that order, each exactly when it was opened.  No request of the job
    API is ever part of it. *)
Theorem direct_path_events (query : query_arg) (use_df : bool) (t : trace) :
  exists new : trace,
    (run_adbc_query pd lib drv cfg query use_df t).2 = t ++ new
    /\ Forall (fun e => is_driver e = true) new
    /\ new =
       connect_event pd lib drv cfg ::
       match connect_answer pd lib drv cfg with
       | Exc _ => []
       | Ret conn =>
           OpenCursor conn ::
           match conn_cursor drv conn with
           | Exc _ => []
           | Ret cursor =>
               Execute cursor (sql (query_of query)) ::
               match cursor_execute drv cursor (sql (query_of query)) with
               | Exc _ => []
               | Ret _ => [fetch_event use_df cursor]
               end ++ [CloseCursor cursor]
           end ++ [CloseConnection conn]
       end.
Proof.
  eexists. split; [| split; [| reflexivity]].
  - rewrite run_adbc_query_unfold.
    fold (connect_answer pd lib drv cfg).
    destruct (connect_answer pd lib drv cfg) as [conn|e] eqn:Hc.
    + destruct (conn_cursor drv conn) as [cursor|e] eqn:Hk.
      * destruct (statements_outcome cursor (sql (query_of query)) use_df
                    ((t ++ [connect_event pd lib drv cfg]) ++ [OpenCursor conn]))
          as (o & Hbody & Ho & _).
        rewrite (adbc_connect_scope pd drv _ _ _ _ conn
                   (match cursor_close drv cursor with
                    | Ret _ => o
                    | Exc x => Raised x
                    end) t
                   ((((t ++ [connect_event pd lib drv cfg]) ++ [OpenCursor conn])
                       ++ Execute cursor (sql (query_of query)) ::
                          match cursor_execute drv cursor (sql (query_of query)) with
                          | Ret _ => [fetch_event use_df cursor]
                          | Exc _ => []
                          end) ++ [CloseCursor cursor]) Hc).
        -- simpl. rewrite <- !app_assoc. reflexivity.
        -- exact (adbc_cursor_scope pd drv conn _ cursor o _ _ Hk Hbody Ho).
        -- destruct (cursor_close drv cursor); [exact Ho | discriminate].
      * rewrite (adbc_connect_scope pd drv _ _ _ _ conn (Raised e) t
                   ((t ++ [connect_event pd lib drv cfg]) ++ [OpenCursor conn]) Hc);
          [| now apply adbc_cursor_refused | discriminate].
        simpl. rewrite <- !app_assoc. reflexivity.
    + rewrite (adbc_connect_refused pd drv _ _ _ _ e t Hc). reflexivity.
  - constructor; [reflexivity |].
    destruct (connect_answer pd lib drv cfg) as [conn|e]; [| constructor].
    constructor; [reflexivity |]. apply Forall_app. split; [| repeat constructor].
    destruct (conn_cursor drv conn) as [cursor|e]; [| constructor].
    constructor; [reflexivity |]. apply Forall_app. split; [| repeat constructor].
    destruct (cursor_execute drv cursor (sql (query_of query))); [| constructor].
    destruct use_df; repeat constructor.
Qed.

(** A close that raises is not suppressed: the exception of the
    connection's close is what the caller gets whatever happened inside
    the scope, and the exception of the cursor's close is what the caller
    gets when the connection's close returns.  The connection is closed
    also when the cursor's close raises. *)
Theorem close_failure_reaches_caller (query : query_arg) (use_df : bool) (t : trace)
    (conn : Connection) (cursor : Cursor) :
  connect_answer pd lib drv cfg = Ret conn ->
  conn_cursor drv conn = Ret cursor ->
  let run := run_adbc_query pd lib drv cfg query use_df t in
  (forall e, conn_close drv conn = Exc e -> run.1 = Raised e)
  /\ (forall e, cursor_close drv cursor = Exc e -> conn_close drv conn = Ret tt ->
        run.1 = Raised e)
  /\ exists before, run.2 = before ++ [CloseCursor cursor; CloseConnection conn].
Proof.
  intros Hc Hk run. unfold run. rewrite run_adbc_query_unfold.
  destruct (statements_outcome cursor (sql (query_of query)) use_df
              ((t ++ [connect_event pd lib drv cfg]) ++ [OpenCursor conn]))
    as (o & Hbody & Ho & _).
  rewrite (adbc_connect_scope pd drv _ _ _ _ conn
             (match cursor_close drv cursor with
              | Ret _ => o
              | Exc x => Raised x
              end) t _ Hc
             (adbc_cursor_scope pd drv conn _ cursor o _ _ Hk Hbody Ho)).
  - simpl. split; [| split].
    + now intros e ->.
    + now intros e -> ->.
    + eexists. rewrite <- app_assoc. reflexivity.
  - destruct (cursor_close drv cursor); [exact Ho | discriminate].
Qed.

(** The two option mappings.  The session options are the routing tag
    alone, under the session prefix.  Among the database options the
    encryption header is always "true"; the project cookie is present
    exactly for a non-empty project id; and, the name of the
    authorization header being none of the two call headers, the
    authorization is the bearer token. *)
Theorem connection_options_entries (pat : string) (project_id : option string) :
  AUTHORIZATION_HEADER drv <> RPC_CALL_HEADER_PREFIX drv +:+ "useEncryption" ->
  AUTHORIZATION_HEADER drv <> RPC_CALL_HEADER_PREFIX drv +:+ "Cookie" ->
  let options := create_adbc_connection_options pd drv pat project_id in
  options.2 = {[ OPTION_SESSION_OPTION_PREFIX drv +:+ "routing_tag" := "MCP" ]}
  /\ options.1 !! AUTHORIZATION_HEADER drv = Some ("Bearer " +:+ pat)
  /\ options.1 !! (RPC_CALL_HEADER_PREFIX drv +:+ "useEncryption") = Some "true"
  /\ options.1 !! (RPC_CALL_HEADER_PREFIX drv +:+ "Cookie") =
     (if truthy project_id then Some ("project_id=" +:+ fmt project_id) else None)
  /\ size options.1 = (if truthy project_id then 3 else 2)%nat.
Proof.
  intros Hauth1 Hauth2 options. unfold options, create_adbc_connection_options.
  assert (RPC_CALL_HEADER_PREFIX drv +:+ "Cookie"
          <> RPC_CALL_HEADER_PREFIX drv +:+ "useEncryption") as Hkeys.
  { intros H. apply append_inj_l in H. discriminate. }
  cbn [fst snd]. split; [| split; [| split; [| split]]].
  - rewrite map_to_list_singleton. simpl. apply insert_empty.
  - destruct (truthy project_id).
    + rewrite lookup_insert_ne by congruence.
      rewrite lookup_insert_ne by congruence. apply lookup_singleton_eq.
    + rewrite lookup_insert_ne by congruence. apply lookup_singleton_eq.
  - destruct (truthy project_id).
    + rewrite lookup_insert_ne by congruence. apply lookup_insert_eq.
    + apply lookup_insert_eq.
  - destruct (truthy project_id).
    + apply lookup_insert_eq.
    + rewrite lookup_insert_ne by congruence.
      apply lookup_singleton_ne. congruence.
  - destruct (truthy project_id).
    + rewrite map_size_insert_None.
      * rewrite map_size_insert_None, map_size_singleton; [reflexivity |].
        apply lookup_singleton_ne. congruence.
      * rewrite lookup_insert_ne by congruence.
        apply lookup_singleton_ne. congruence.
    + rewrite map_size_insert_None, map_size_singleton; [reflexivity |].
      apply lookup_singleton_ne. congruence.
Qed.

End DirectMore.

(** ** Further properties of the tabular mode *)

Lemma convert_columns_filter (pd : Pandas) (schema : list ResultSchema) :
  forall acc : result (DataFrame pd),
    foldl (fun acc rs =>
             match acc with
             | Exc e => Exc e
             | Ret df =>
                 if String.eqb (rst_name (rs_type rs)) "TIMESTAMP"
                 then pd_to_datetime pd df (rs_name rs)
                 else Ret df
             end) acc schema
    = foldl (fun acc rs =>
               match acc with
               | Exc e => Exc e
               | Ret df => pd_to_datetime pd df (rs_name rs)
               end) acc (List.filter is_timestamp schema).
Proof.
  induction schema as [|rs schema IH]; intros acc; simpl; [reflexivity |].
  unfold is_timestamp at 1.
  destruct (String.eqb (rst_name (rs_type rs)) "TIMESTAMP"); simpl.
  - apply IH.
  - rewrite <- IH. destruct acc; reflexivity.
Qed.

(** The table of tabular mode holds the rows of all the pages under the
    column names of the first page, and exactly the columns that the
    first page declares as TIMESTAMP are converted, in schema order, up
    to the first conversion that raises; no request is issued.  Without a
    page the construction raises [IndexError], and when the first page
    has no schema it raises [TypeError]. *)
Theorem to_frame_converts_timestamps (pd : Pandas) (jr0 : JobResults)
    (others : JobResultsWrapper) (t : trace) :
  to_frame pd [] t = (Raised (IndexError "list index out of range"), t)
  /\ (result_schema jr0 = None ->
      to_frame pd (jr0 :: others) t =
      (Raised (TypeError "'NoneType' object is not iterable"), t))
  /\ (forall schema,
        result_schema jr0 = Some schema ->
        to_frame pd (jr0 :: others) t =
        (match convert_columns pd
                 (pd_DataFrame pd (all_rows (jr0 :: others)) (map rs_name schema))
                 (List.filter is_timestamp schema) with
         | Ret df => Done (Frame df)
         | Exc e => Raised e
         end, t)).
Proof.
  split; [reflexivity |]. split.
  - intros H. unfold to_frame. rewrite H. reflexivity.
  - intros schema H. unfold to_frame. rewrite H, bind_unfold.
    rewrite convert_columns_filter. unfold convert_columns, chain, all_rows.
    match goal with |- context [lift ?r] => destruct r as [df|e] end; reflexivity.
Qed.

(** ** Further properties of the entry point *)

Lemma grows_ret {A : Type} (P : event -> Prop) (o : outcome A) (t : trace) :
  exists rest, (o, t).2 = t ++ rest /\ Forall P rest.
Proof. exists []. split; [simpl; now rewrite app_nil_r | constructor]. Qed.

Lemma grows_bind {A B : Type} (P : event -> Prop) (c : M A) (k : A -> M B)
    (t : trace) :
  (forall t0, exists rest, (c t0).2 = t0 ++ rest /\ Forall P rest) ->
  (forall a t0, exists rest, (k a t0).2 = t0 ++ rest /\ Forall P rest) ->
  exists rest, ((c ≫= k) t).2 = t ++ rest /\ Forall P rest.
Proof.
  intros Hc Hk. rewrite bind_unfold. destruct (Hc t) as (r1 & Hr1 & HP1).
  destruct (c t) as [[a|e|] t']; simpl in Hr1; subst t'.
  - destruct (Hk a (t ++ r1)) as (r2 & Hr2 & HP2). exists (r1 ++ r2).
    rewrite Hr2, app_assoc. split; [reflexivity |]. now apply Forall_app.
  - now exists r1.
  - now exists r1.
Qed.

Section EntryPoint.

Context (pd : Pandas) (lib : Urllib) (drv : Driver pd) (cfg : Settings)
        (svc : Service).

Lemma get_results_http (fuel : nat) (project_id : option string)
    (qs : QuerySubmission + string) (use_df : bool) (uri pat : option string)
    (t : trace) :
  exists rest,
    (get_results pd svc fuel project_id qs use_df uri pat t).2 = t ++ rest
    /\ Forall (fun e => is_http e = true) rest.
Proof.
  unfold get_results. apply grows_bind.
  - intros t0. rewrite client_get_job_unfold. eexists. split; [reflexivity |].
    repeat constructor.
  - intros job t0. apply grows_bind.
    + clear t0 t. intros t0. revert job t0.
      induction fuel as [|fuel' IH]; intros job t0; simpl.
      * destruct (done job); apply grows_ret.
      * destruct (done job); [apply grows_ret |].
        apply grows_bind.
        -- intros t1. exists [Sleep]. split; [reflexivity | repeat constructor].
        -- intros _ t1. apply grows_bind.
           ++ intros t2. rewrite client_get_job_unfold. eexists.
              split; [reflexivity |]. repeat constructor.
           ++ intros job' t2. apply IH.
    + intros job' t1.
      destruct (assemble_new_events pd svc job' project_id
                  (match qs with inl q => q | inr s => {| id := s |} end)
                  use_df uri pat t1) as (rest & Hrest & Hpages).
      exists rest. split; [exact Hrest |]. now apply page_requests_only.
Qed.

(** The two paths do not mix: with [use_adbc] the entry point only calls
    the driver, and without it it only speaks to the job API (and
    pauses); whatever the outcome. *)
Theorem run_query_paths (fuel : nat) (query : query_arg) (use_df use_adbc : bool)
    (t : trace) :
  exists new : trace,
    (run_query pd lib drv cfg svc fuel query use_df use_adbc t).2 = t ++ new
    /\ Forall (fun e => (if use_adbc then is_driver e else is_http e) = true) new.
Proof.
  unfold run_query. destruct use_adbc.
  - destruct (direct_path_events pd lib drv cfg query use_df t)
      as (new & Hnew & Hdrv & _).
    now exists new.
  - apply grows_bind.
    + intros t0. eexists. split; [reflexivity |]. repeat constructor.
    + intros qs t0. apply get_results_http.
Qed.

(** The submission on the polling path: when it raises, the exception
    reaches the caller and nothing else was asked of the service; when it
    returns, the next request is the status query of the job it
    returned. *)
Theorem submission_then_status (fuel : nat) (query : query_arg) (use_df : bool)
    (t : trace) :
  let url := endpoint_of (dremio_project_id cfg) +:+ "/sql" in
  let run := run_query pd lib drv cfg svc fuel query use_df false t in
  (forall e,
      post_sql svc url (query_of query) = Exc e ->
      run = (Raised e, t ++ [HttpPost url (query_of query)]))
  /\ (forall qs,
        post_sql svc url (query_of query) = Ret qs ->
        exists rest,
          run.2 = t ++ HttpPost url (query_of query)
                    :: HttpGet (job_url (dremio_project_id cfg) (id qs)) None
                    :: rest).
Proof.
  intros url run. unfold run, run_query. fold (query_of query). fold url.
  split.
  - intros e He. rewrite bind_unfold. unfold call. rewrite He. reflexivity.
  - intros qs Hqs. rewrite bind_unfold. unfold call at 1. rewrite Hqs.
    unfold get_results. fold (job_url (dremio_project_id cfg) (id qs)).
    destruct (extends_seq
                (client_get_job svc (job_url (dremio_project_id cfg) (id qs)))
                (fun job =>
                   poll svc fuel (job_url (dremio_project_id cfg) (id qs)) job ≫=
                   (fun job' =>
                      assemble pd svc job' (dremio_project_id cfg) qs use_df
                        None None))
                (t ++ [HttpPost url (query_of query)])) as [rest Hrest].
    + intros t0. rewrite client_get_job_unfold. now eexists.
    + intros job t0. apply extends_seq.
      * intros t1. apply extends_poll.
      * intros job' t1. apply extends_assemble.
    + rewrite bind_unfold in Hrest. rewrite bind_unfold.
      rewrite client_get_job_unfold in *.
      destruct (job_at svc (job_url (dremio_project_id cfg) (id qs))
                  (polls (job_url (dremio_project_id cfg) (id qs))
                     (t ++ [HttpPost url (query_of query)]))) as [job|e].
      * destruct ((poll svc fuel (job_url (dremio_project_id cfg) (id qs)) job ≫=
                   (fun job' =>
                      assemble pd svc job' (dremio_project_id cfg) qs use_df
                        None None))
                    ((t ++ [HttpPost url (query_of query)])
                       ++ [HttpGet (job_url (dremio_project_id cfg) (id qs)) None]))
          as [o t'] eqn:Hk.
        destruct (extends_seq
                    (poll svc fuel (job_url (dremio_project_id cfg) (id qs)) job)
                    (fun job' =>
                       assemble pd svc job' (dremio_project_id cfg) qs use_df
                         None None)
                    ((t ++ [HttpPost url (query_of query)])
                       ++ [HttpGet (job_url (dremio_project_id cfg) (id qs)) None]))
          as [rest' Hrest'].
        -- intros t1. apply extends_poll.
        -- intros job' t1. apply extends_assemble.
        -- rewrite Hk in Hrest'. simpl in Hrest'. exists rest'.
           simpl. rewrite Hrest', <- !app_assoc. reflexivity.
      * exists []. simpl. rewrite <- app_assoc. reflexivity.
Qed.

End EntryPoint.

(** ** Properties of the feature flags *)

Section Flags.

Import FeatureFlags.

Context (ld : LaunchDarkly).

Lemma build_context_cases (project_id org_id : option context_key) :
  build_context project_id org_id =
  match project_id with Some p => [("projectId", p)] | None => [] end
  ++ match org_id with Some o => [("orgId", o)] | None => [] end.
Proof. destruct project_id, org_id; reflexivity. Qed.

(** A flag evaluates to something other than its default only when the
    manager has a client, the client reports that it is initialised and
    the evaluation returns that value.  A manager without a client makes
    no call at all, and a client that is not initialised, or whose
    [is_initialized] raises, is asked nothing else. *)
Theorem flag_default_unless_enabled (self : FeatureFlagManager) (flag_key : string)
    (default : pyval) (project_id org_id : option context_key) (cs : list ld_call) :
  let run := get_flag ld self flag_key default project_id org_id cs in
  (run.1 <> default ->
   exists client,
     _client self = Some client
     /\ is_initialized ld cs client = Ret true
     /\ variation ld (cs ++ [IsInitialized client]) client flag_key
          (build_context project_id org_id) default = Ret run.1)
  /\ (_client self = None -> run = (default, cs))
  /\ (forall client,
        _client self = Some client ->
        is_initialized ld cs client <> Ret true ->
        run = (default, cs ++ [IsInitialized client])).
Proof.
  intros run. unfold run, get_flag, is_enabled.
  destruct (_client self) as [client|].
  - destruct (is_initialized ld cs client) as [[|]|e] eqn:Hinit.
    + split; [| split; [discriminate |]].
      * intros Hne. exists client. split; [reflexivity |]. split; [exact Hinit |].
        simpl in *.
        destruct (variation ld (cs ++ [IsInitialized client]) client flag_key
                    (build_context project_id org_id) default);
          [reflexivity | contradiction].
      * intros c [= <-] H. contradiction.
    + split; [intros H; now contradiction H |]. split; [discriminate |].
      intros c [= <-] _. reflexivity.
    + split; [intros H; now contradiction H |]. split; [discriminate |].
      intros c [= <-] _. reflexivity.
  - split; [intros H; now contradiction H |]. split; [reflexivity |].
    intros c H. discriminate.
Qed.


(** The first call to [instance] needs a key; once it has created the
    manager, every later call returns that manager, whatever key it is
    given and without any call to LaunchDarkly. *)
Theorem instance_singleton (key : string) (later : option string) (st : State) :
  _instance st = None ->
  instance ld None st =
  (Exc (ValueError "sdk_key is required when creating FeatureFlagManager instance"),
   st)
  /\ exists m,
       (instance ld (Some key) st).1 = Ret m
       /\ _instance (instance ld (Some key) st).2 = Some m
       /\ instance ld later (instance ld (Some key) st).2 =
          (Ret m, (instance ld (Some key) st).2).
Proof.
  intros Hnone. split; [unfold instance; now rewrite Hnone |].
  assert (instance ld (Some key) st =
          (Ret (init ld key (calls st)).1,
           {| _instance := Some (init ld key (calls st)).1;
              calls := (init ld key (calls st)).2 |})) as ->.
  { unfold instance. rewrite Hnone. now destruct (init ld key (calls st)). }
  exists (init ld key (calls st)).1. simpl.
  split; [reflexivity |]. split; reflexivity.
Qed.

(** A manager created with an empty key: LaunchDarkly is not called, the
    manager has no client, every flag is its default, and the manager
    stays in place when [instance] is later called with another key. *)
Theorem empty_key_disables (st : State) (later : option string)
    (flag_key : string) (default : pyval) (project_id org_id : option context_key) :
  _instance st = None ->
  let st' := (instance ld (Some "") st).2 in
  calls st' = calls st
  /\ exists m,
       instance ld later st' = (Ret m, st')
       /\ _client m = None
       /\ get_flag ld m flag_key default project_id org_id (calls st')
          = (default, calls st').
Proof.
  intros Hnone st'.
  assert (st' = {| _instance := Some {| _client := None |}; calls := calls st |})
    as ->.
  { unfold st', instance. now rewrite Hnone. }
  simpl. split; [reflexivity |]. exists {| _client := None |}.
  split; [reflexivity |]. split; reflexivity.
Qed.

(** [reset]: the client of the instance, if it has one, is closed, once.
    When the close returns, or there is nothing to close, the instance is
    gone and the next [instance] needs a key again.  When the close
    raises, the exception reaches the caller and the instance stays in
    place. *)
Theorem reset_outcome (st : State) :
  ((reset ld st).1 = Ret tt ->
   _instance (reset ld st).2 = None
   /\ (instance ld None (reset ld st).2).1 =
      Exc (ValueError "sdk_key is required when creating FeatureFlagManager instance"))
  /\ (forall e, (reset ld st).1 = Exc e ->
        _instance (reset ld st).2 = _instance st
        /\ exists client,
             (_instance st ≫= _client) = Some client
             /\ close ld (calls st) client = Exc e)
  /\ calls (reset ld st).2 =
     calls st ++ match _instance st ≫= _client with
                 | Some client => [Close client]
                 | None => []
                 end.
Proof.
  unfold reset. destruct (_instance st) as [[[client|]]|]; simpl.
  - destruct (close ld (calls st) client) as [[]|e] eqn:Hclose; simpl.
    + split; [now split |]. split; [discriminate | reflexivity].
    + split; [discriminate |]. split; [| reflexivity].
      intros x [= <-]. split; [reflexivity |]. now exists client.
  - split; [now split |]. split; [discriminate |]. now rewrite app_nil_r.
  - split; [now split |]. split; [discriminate |]. now rewrite app_nil_r.
Qed.

End Flags.

(** A manager is given a client exactly when the key is not empty and
    both [set_config] and [get] return; the construction swallows every
    exception, also that of [is_initialized], after which the client is
    kept. *)
Theorem init_client (ld : FeatureFlags.LaunchDarkly) (sdk_key : string)
    (cs : list FeatureFlags.ld_call) (client : FeatureFlags.LDClient) :
  FeatureFlags._client (FeatureFlags.init ld sdk_key cs).1 = Some client <->
  sdk_key <> ""
  /\ (exists u, FeatureFlags.set_config ld cs sdk_key = Ret u)
  /\ FeatureFlags.get ld (cs ++ [FeatureFlags.SetConfig sdk_key]) sdk_key = Ret client.
Proof.
  unfold FeatureFlags.init, truthy.
  destruct (String.eqb_spec sdk_key "") as [-> | Hkey]; simpl.
  - split; [discriminate |]. intros (H & _). contradiction.
  - destruct (FeatureFlags.set_config ld cs sdk_key) as [u|e]; simpl.
    + destruct (FeatureFlags.get ld (cs ++ [FeatureFlags.SetConfig sdk_key]) sdk_key)
        as [c|e]; simpl.
      * split.
        -- intros [= <-]. split; [exact Hkey |]. split; [now exists u | reflexivity].
        -- intros (_ & _ & [= <-]). reflexivity.
      * split; [discriminate |]. intros (_ & _ & H). discriminate.
    + split; [discriminate |]. intros (_ & [u H] & _). discriminate.
Qed.

(** ** The further properties on the sample worlds *)

Lemma no_poll_after_done_witness :
  let url := job_url None "j1" in
  let run :=
    get_results Sample.pd
      (Sample.svc (Sample.snapshot "COMPLETED" (Present 1200) Absent Absent) 1200)
      3 None (inr "j1") false None None [] in
  polls url run.2 = 2%nat /\ sleeps run.2 = 1%nat.
Proof.
  intros url run.
  apply (no_poll_after_done Sample.pd
           (Sample.svc (Sample.snapshot "COMPLETED" (Present 1200) Absent Absent) 1200)
           3 1 None (inr "j1") false None None
           (Sample.job COMPLETED (Some 1200) None None) []).
  - apply sample_settles; reflexivity.
  - lia.
Defined.

Lemma failed_job_fetches_nothing_witness :
  (get_results Sample.pd
     (Sample.svc (Sample.snapshot "FAILED" Absent (Present "syntax error") Absent) 0)
     3 None (inr "j1") false None None []).1
  = Raised (RuntimeError "Job j1 failed: syntax error").
Proof.
  destruct (failed_job_fetches_nothing Sample.pd
              (Sample.svc (Sample.snapshot "FAILED" Absent (Present "syntax error")
                             Absent) 0)
              3 1 None (inr "j1") false None None
              (Sample.job FAILED (Some 0) (Some "syntax error") None) [])
    as [Hrun _].
  - apply sample_settles; reflexivity.
  - lia.
  - discriminate.
  - rewrite Hrun. reflexivity.
Defined.

Lemma status_failure_propagates_witness :
  get_results Sample.pd SampleMore.svc_refusing 3 None (inr "j1") false None None []
  = (Raised (TransportError "503"),
     [HttpGet (job_url None "j1") None; Sleep; HttpGet (job_url None "j1") None]).
Proof.
  apply (status_failure_propagates Sample.pd SampleMore.svc_refusing 1
           (TransportError "503") 0 3 None (inr "j1") false None None []).
  - apply stalls_later with (job0 := Sample.running); [reflexivity | reflexivity |].
    apply stalls_now. reflexivity.
  - reflexivity.
  - lia.
Defined.

Lemma page_windows_witness :
  exists P offsets,
    Py.min 500 (Some 1200) = Ret P /\ Py.range 0 1200 P = Ret offsets
    /\ exists off, off ∈ offsets /\ off <= 1100 < off + P.
Proof.
  destruct (page_windows 1200 ltac:(lia)) as (P & offsets & Hmin & Hrange & _ & _ & Hwin).
  destruct (Hwin 1100 ltac:(lia)) as (off & Hin & Hoff & _).
  exists P, offsets. split; [exact Hmin |]. split; [exact Hrange |].
  now exists off.
Defined.

Lemma null_row_count_raises_witness :
  (get_results Sample.pd
     (Sample.svc (Sample.snapshot "COMPLETED" Null Absent Absent) 0)
     3 None (inr "j1") false None None []).1
  = Raised (TypeError "'<' not supported between instances of 'NoneType' and 'int'").
Proof.
  destruct (null_row_count_raises Sample.pd
              (Sample.svc (Sample.snapshot "COMPLETED" Null Absent Absent) 0)
              (Sample.snapshot "COMPLETED" Null Absent Absent) eq_refl)
    as [_ Hraise].
  rewrite (Hraise 3%nat 1%nat None (inr "j1") false None None
             (Sample.job COMPLETED None None None) []).
  - reflexivity.
  - apply sample_settles; reflexivity.
  - reflexivity.
  - reflexivity.
  - lia.
Defined.

Lemma negative_row_count_one_request_witness :
  page_requests
    (get_results Sample.pd
       (Sample.svc (Sample.snapshot "COMPLETED" (Present (-5)) Absent Absent) 0)
       3 None (inr "j1") false None None []).2
  = [page_request None "j1" (-5) 0].
Proof.
  destruct (negative_row_count_one_request Sample.pd
              (Sample.svc (Sample.snapshot "COMPLETED" (Present (-5)) Absent Absent) 0)
              3 1 None (inr "j1") false None None
              (Sample.job COMPLETED (Some (-5)) None None) (-5) [])
    as [_ Htrace].
  - apply sample_settles; reflexivity.
  - lia.
  - reflexivity.
  - reflexivity.
  - lia.
  - rewrite Htrace. reflexivity.
Defined.

Lemma convert_row_keys_witness :
  exists dict,
    convert_row (schema_of (cursor_description (Sample.drv true) 7%nat)) [VInt 1]
    = Ret dict
    /\ dom dict = {[ "id" ]}.
Proof.
  exists {[ "id" := VInt 1 ]}. split; [reflexivity |].
  destruct (convert_row_keys
              (schema_of (cursor_description (Sample.drv true) 7%nat)) [VInt 1]
              {[ "id" := VInt 1 ]} eq_refl) as [_ Hdom].
  rewrite Hdom. simpl. now rewrite union_empty_r_L.
Defined.

Lemma close_failure_reaches_caller_witness :
  (run_adbc_query Sample.pd Sample.lib SampleMore.drv_stuck_cursor Sample.cfg
     (QStr "select id from t") false []).1
  = Raised (DriverError "cursor is busy").
Proof.
  destruct (close_failure_reaches_caller Sample.pd Sample.lib
              SampleMore.drv_stuck_cursor Sample.cfg
              (QStr "select id from t") false [] 1%nat 7%nat eq_refl eq_refl)
    as (_ & Hcursor & _).
  exact (Hcursor (DriverError "cursor is busy") eq_refl eq_refl).
Defined.

Lemma connection_options_entries_witness :
  (create_adbc_connection_options Sample.pd (Sample.drv true) "token" (Some "p1")).1
    !! "adbc.flight.sql.rpc.call_header.Cookie"
  = Some "project_id=p1".
Proof.
  destruct (connection_options_entries Sample.pd (Sample.drv true) "token" (Some "p1")
              ltac:(discriminate) ltac:(discriminate))
    as (_ & _ & _ & Hcookie & _).
  exact Hcookie.
Defined.

Lemma instance_singleton_witness :
  exists m,
    (FeatureFlags.instance SampleMore.ld (Some "sdk-1") SampleMore.fresh).1 = Ret m
    /\ FeatureFlags.instance SampleMore.ld (Some "sdk-2")
         (FeatureFlags.instance SampleMore.ld (Some "sdk-1") SampleMore.fresh).2
       = (Ret m, (FeatureFlags.instance SampleMore.ld (Some "sdk-1") SampleMore.fresh).2).
Proof.
  destruct (instance_singleton SampleMore.ld "sdk-1" (Some "sdk-2") SampleMore.fresh
              eq_refl) as (_ & m & Hfirst & _ & Hlater).
  exists m. split; [exact Hfirst | exact Hlater].
Defined.

Lemma empty_key_disables_witness :
  exists m,
    FeatureFlags.instance SampleMore.ld (Some "sdk-1")
      (FeatureFlags.instance SampleMore.ld (Some "") SampleMore.fresh).2
    = (Ret m, (FeatureFlags.instance SampleMore.ld (Some "") SampleMore.fresh).2)
    /\ FeatureFlags.get_flag SampleMore.ld m "flag" (VBool false) None None [] =
       (VBool false, []).
Proof.
  destruct (empty_key_disables SampleMore.ld SampleMore.fresh (Some "sdk-1")
              "flag" (VBool false) None None eq_refl) as (_ & m & Hlater & _ & Hflag).
  exists m. split; [exact Hlater | exact Hflag].
Defined.
